(** * Stock pattern detector: the React front end

  A shallow embedding of the client-side state logic of the dashboard:

  - [UseToast]  : components/ui/use-toast.jsx (the [ToastProvider] and its
                  [toast] function);
  - [Dashboard] : Pages/Dashboard.jsx ([checkPattern]) and
                  Components/dashboard/StockCard.jsx, Components/ui/button.jsx;
  - [Layout]    : Layout.jsx ([checkHealth], the health banner and its
                  dismiss button);
  - [Utils]     : utils.js ([createPageUrl] and [cn]);
  - [Main]      : main.jsx (the routes) and the links that lead to them.

  JavaScript values are an inductive type, React state is a record that is
  threaded through every call, and an [async] function is cut at its [await]s:
  each stretch of synchronous code is a computation in a small state monad
  whose outcome is a value, a thrown error, or a suspension. *)

From stdpp Require Import base tactics option list strings pretty gmap.
From Stdlib Require Import ZArith NArith.

Local Open Scope string_scope.
Local Open Scope list_scope.
Set Warnings "-register-all".

(** ** JavaScript values *)

Module JS.

(** What [JSON.parse] can produce. A number is carried as an integer: the
    code only ever tests a number for being zero. *)
Inductive json : Type :=
| JNull
| JBool (b : bool)
| JNum (n : Z)
| JStr (s : string)
| JArr (items : list json)
| JObj (members : list (string * json)).

Inductive value : Type :=
| VUndefined
| VJson (j : json).

Abbreviation VNull := (VJson JNull).
Abbreviation VBool b := (VJson (JBool b)).
Abbreviation VTrue := (VJson (JBool true)).
Abbreviation VFalse := (VJson (JBool false)).
Abbreviation VStr s := (VJson (JStr s)).

(** [ToBoolean], as used by [c ? a : b], [a || b] and JSX attributes. *)
Definition truthy (v : value) : bool :=
  match v with
  | VUndefined => false
  | VJson JNull => false
  | VJson (JBool b) => b
  | VJson (JNum n) => negb (n =? 0)%Z
  | VJson (JStr s) => negb (String.eqb s "")
  | VJson (JArr _) => true
  | VJson (JObj _) => true
  end.

(** [v === null], [v === true] and [v === "s"]. *)
Definition is_null (v : value) : bool :=
  match v with VJson JNull => true | _ => false end.

Definition is_true (v : value) : bool :=
  match v with VJson (JBool true) => true | _ => false end.

Definition is_str (s : string) (v : value) : bool :=
  match v with VJson (JStr s') => String.eqb s' s | _ => false end.

(** A plain object: its own properties in insertion order. *)
Definition object : Type := list (string * value).

Fixpoint obj_get (k : string) (o : object) : value :=
  match o with
  | [] => VUndefined
  | (k', v) :: o' => if String.eqb k' k then v else obj_get k o'
  end.

(** [{ ...o, [k]: v }]: an existing key keeps its place, a new one goes
    last. *)
Fixpoint obj_set (k : string) (v : value) (o : object) : object :=
  match o with
  | [] => [(k, v)]
  | (k', v') :: o' =>
      if String.eqb k' k then (k, v) :: o' else (k', v') :: obj_set k v o'
  end.

Definition Object_keys (o : object) : list string := fst <$> o.

(** A member of a parsed JSON object; when the text repeats a key,
    [JSON.parse] keeps the last one. *)
Fixpoint last_member (k : string) (ms : list (string * json))
  : option json :=
  match ms with
  | [] => None
  | (k', j) :: ms' =>
      match last_member k ms' with
      | Some j' => Some j'
      | None => if String.eqb k' k then Some j else None
      end
  end.

(** [const { k } = j] for a parsed body [j]: [null] cannot be
    destructured, an object yields its member or [undefined], and any other
    value has no such property. *)
Definition destructure (k : string) (j : json) : option value :=
  match j with
  | JNull => None
  | JObj ms =>
      Some (match last_member k ms with
            | Some j' => VJson j'
            | None => VUndefined
            end)
  | _ => Some VUndefined
  end.

(** [String.prototype.substring(from, to)] on indices inside the string. *)
Definition substring (from to : nat) (s : string) : string :=
  String.substring from (to - from) s.

End JS.
Import JS.

(** ** Synchronous stretches of code *)

Section Step.
Context {St Susp : Type}.

(** How a stretch of code ends: it returns, it throws, or it reaches an
    [await] and is suspended there. *)
Inductive Outcome (A : Type) : Type :=
| Ok (a : A)
| Throw (err : string)
| Await (p : Susp).

Definition Step (A : Type) : Type := St -> Outcome A * St.

Definition ret {A} (a : A) : Step A := fun s => (Ok A a, s).

Definition bind {A B} (m : Step A) (k : A -> Step B) : Step B :=
  fun s =>
    match m s with
    | (Ok _ a, s') => k a s'
    | (Throw _ e, s') => (Throw B e, s')
    | (Await _ p, s') => (Await B p, s')
    end.

Definition throw {A} (err : string) : Step A := fun s => (Throw A err, s).

Definition await {A} (p : Susp) : Step A := fun s => (Await A p, s).

Definition modify (f : St -> St) : Step unit := fun s => (Ok unit tt, f s).

Definition gets {A} (f : St -> A) : Step A := fun s => (Ok A (f s), s).

(** [try { body } catch (err) { handler err }] *)
Definition try_catch {A} (body : Step A) (handler : string -> Step A)
  : Step A :=
  fun s =>
    match body s with
    | (Throw _ e, s') => handler e s'
    | r => r
    end.

(** [try { body } finally { fin }]: [fin] runs when [body] completes,
    normally or not; a suspended [body] has not completed. *)
Definition try_finally {A} (body : Step A) (fin : Step unit) : Step A :=
  fun s =>
    match body s with
    | (Await _ p, s') => (Await A p, s')
    | (o, s') =>
        match fin s' with
        | (Ok _ _, s'') => (o, s'')
        | (Throw _ e, s'') => (Throw A e, s'')
        | (Await _ p, s'') => (Await A p, s'')
        end
    end.

End Step.

Arguments Outcome : clear implicits.
Arguments Step : clear implicits.
Arguments Ok {Susp A} a.
Arguments Throw {Susp A} err.
Arguments Await {Susp A} p.

#[global] Instance Step_ret {St Susp} : MRet (Step St Susp) :=
  fun A a => ret a.
#[global] Instance Step_bind {St Susp} : MBind (Step St Susp) :=
  fun A B k m => bind m k.

(** ** Promises and responses *)

(** How a promise settles. A response is carried as its status code. *)
Inductive Settled (A : Type) : Type :=
| Resolved (a : A)
| Rejected (err : string).
Arguments Resolved {A} a.
Arguments Rejected {A} err.

(** [res.ok]: the status is in the range 200-299. *)
Definition ok (status : nat) : bool :=
  (200 <=? status)%nat && (status <=? 299)%nat.

(** ** The state of the running application *)

(** The two closures the code hands to [setTimeout]:
    [() => setToasts(prev => prev.filter(t => t.id !== id))] and
    [() => controller.abort()]. An [AbortController] is named by a number. *)
Inductive Callback : Type :=
| RemoveToast (id : string)
| AbortFetch (controller : nat).

Record Timer : Type := mkTimer {
  handle : nat;
  due : N;
  callback : Callback
}.

(** Where a call of [checkPattern] is suspended, with the locals its
    continuation still needs. *)
Inductive Suspension : Type :=
| AwaitFetch (controller timeoutId : nat)
| AwaitJson (controller : nat).

Record Task : Type := mkTask {
  task_symbol : string;
  awaiting : Suspension
}.

Definition task_request (t : Task) : nat :=
  match awaiting t with
  | AwaitFetch c _ => c
  | AwaitJson c => c
  end.

(** The calls a component makes on its surroundings, in order. The record of
    them is kept next to the state so that one can count them. *)
Inductive Call : Type :=
| CSetIsChecking (updater : gmap string bool -> gmap string bool)
| CSetStockResults (updater : object -> object)
| CSetToasts (updater : list object -> list object)
| CToast (args : object)
| CConsoleError (msg err : string)
| CFetch (url : string) (controller : nat)
| CUnhandledRejection (err : string).

(** [stockResults] is listed by [Object.keys] when the page is rendered, so
    it keeps the order of its keys; [isChecking] is only ever read at a key
    and is a finite map. *)
Record World : Type := mkWorld {
  (* Dashboard: useState *)
  stockResults : object;
  isChecking : gmap string bool;
  (* ToastProvider: useState *)
  toasts : list object;
  (* the browser *)
  timers : list Timer;
  tasks : list Task;
  now : N;
  nextId : nat;
  rng : nat -> string;
  draws : nat;
  calls : list Call
}.

Definition with_stockResults (v : object) (w : World) : World :=
  mkWorld v (isChecking w) (toasts w) (timers w) (tasks w) (now w)
          (nextId w) (rng w) (draws w) (calls w).
Definition with_isChecking (v : gmap string bool) (w : World) : World :=
  mkWorld (stockResults w) v (toasts w) (timers w) (tasks w) (now w)
          (nextId w) (rng w) (draws w) (calls w).
Definition with_toasts (v : list object) (w : World) : World :=
  mkWorld (stockResults w) (isChecking w) v (timers w) (tasks w) (now w)
          (nextId w) (rng w) (draws w) (calls w).
Definition with_timers (v : list Timer) (w : World) : World :=
  mkWorld (stockResults w) (isChecking w) (toasts w) v (tasks w) (now w)
          (nextId w) (rng w) (draws w) (calls w).
Definition with_tasks (v : list Task) (w : World) : World :=
  mkWorld (stockResults w) (isChecking w) (toasts w) (timers w) v (now w)
          (nextId w) (rng w) (draws w) (calls w).
Definition with_now (v : N) (w : World) : World :=
  mkWorld (stockResults w) (isChecking w) (toasts w) (timers w) (tasks w) v
          (nextId w) (rng w) (draws w) (calls w).
Definition with_nextId (v : nat) (w : World) : World :=
  mkWorld (stockResults w) (isChecking w) (toasts w) (timers w) (tasks w)
          (now w) v (rng w) (draws w) (calls w).
Definition with_draws (v : nat) (w : World) : World :=
  mkWorld (stockResults w) (isChecking w) (toasts w) (timers w) (tasks w)
          (now w) (nextId w) (rng w) v (calls w).
Definition with_calls (v : list Call) (w : World) : World :=
  mkWorld (stockResults w) (isChecking w) (toasts w) (timers w) (tasks w)
          (now w) (nextId w) (rng w) (draws w) v.

Abbreviation Sync := (Step World Suspension).

Definition record (c : Call) : Sync unit :=
  modify (fun w => with_calls (calls w ++ [c]) w).

(** *** React state setters, called with an updater function *)

Definition setIsChecking (updater : gmap string bool -> gmap string bool)
  : Sync unit :=
  record (CSetIsChecking updater);;
  modify (fun w => with_isChecking (updater (isChecking w)) w).

Definition setStockResults (updater : object -> object) : Sync unit :=
  record (CSetStockResults updater);;
  modify (fun w => with_stockResults (updater (stockResults w)) w).

Definition setToasts (updater : list object -> list object) : Sync unit :=
  record (CSetToasts updater);;
  modify (fun w => with_toasts (updater (toasts w)) w).

(** *** Browser functions *)

(** [Math.random().toString(36)]: the next string of the random source. *)
Definition Math_random_toString36 : Sync string :=
  r ← gets (fun w => rng w (draws w));
  modify (fun w => with_draws (S (draws w)) w);;
  mret r.

Definition fresh : Sync nat :=
  n ← gets nextId;
  modify (with_nextId (S n));;
  mret n.

Definition setTimeout (cb : Callback) (delay : N) : Sync nat :=
  h ← fresh;
  modify (fun w =>
    with_timers (timers w ++ [mkTimer h (now w + delay) cb]) w);;
  mret h.

Definition clearTimeout (h : nat) : Sync unit :=
  modify (fun w =>
    with_timers
      (List.filter (fun t => negb (Nat.eqb (handle t) h)) (timers w)) w).

Definition new_AbortController : Sync nat := fresh.

Definition console_error (msg err : string) : Sync unit :=
  record (CConsoleError msg err).

(** [isChecking[symbol]] *)
Definition checking (symbol : string) (w : World) : value :=
  match isChecking w !! symbol with
  | Some b => VBool b
  | None => VUndefined
  end.

(** ** components/ui/use-toast.jsx *)

Module UseToast.

(** The object literal [{ id, title, description, variant }]. *)
Definition newToast (id : string) (title description variant : value)
  : object :=
  [("id", VStr id); ("title", title); ("description", description);
   ("variant", variant)].

(** The filter of the removal callback: [t => t.id !== id]. *)
Definition other_id (id : string) (t : object) : bool :=
  negb (is_str id (obj_get "id" t)).

(** [const toast = ({ title, description, variant = "default" }) => { ... }].
    The body has no [return]: the call evaluates to [undefined]. *)
Definition toast (args : object) : Sync value :=
  record (CToast args);;
  let title := obj_get "title" args in
  let description := obj_get "description" args in
  let variant :=
    match obj_get "variant" args with
    | VUndefined => VStr "default"
    | v => v
    end in
  r ← Math_random_toString36;
  let id := JS.substring 2 9 r in
  setToasts (fun prev => prev ++ [newToast id title description variant]);;
  _ ← setTimeout (RemoveToast id) 3000;
  mret VUndefined.

(** What the timer runs after the delay. *)
Definition remove_toast (id : string) : Sync unit :=
  setToasts (fun prev => List.filter (other_id id) prev).

(** One rendered toast of the container: its React key, its border class,
    and the heading and paragraph, each present when its text is truthy. *)
Record ToastView : Type := mkToastView {
  view_key : value;
  view_border : string;
  view_title : option value;
  view_description : option value
}.

Definition render_toast (t : object) : ToastView :=
  mkToastView
    (obj_get "id" t)
    (if is_str "destructive" (obj_get "variant" t)
     then "border-red-500" else "border-gray-200")
    (if truthy (obj_get "title" t) then Some (obj_get "title" t) else None)
    (if truthy (obj_get "description" t)
     then Some (obj_get "description" t) else None).

(** [toasts.map((t) => ...)] *)
Definition render (w : World) : list ToastView := render_toast <$> toasts w.

(** The two looks of a toast: the red border marks an alert. *)
Inductive Severity : Type := normal | alert.

Definition severity (t : object) : Severity :=
  if is_str "destructive" (obj_get "variant" t) then alert else normal.

End UseToast.

(** ** Pages/Dashboard.jsx with its card and button *)

Module Dashboard.

Definition API_BASE_URL : string := "http://localhost:5000".

(** The initial value of [useState] for [stockResults]. *)
Definition tracked : object :=
  [("AAPL", VNull); ("MSFT", VNull); ("GOOGL", VNull); ("AMZN", VNull);
   ("TSLA", VNull); ("META", VNull); ("NVDA", VNull)].

(** [fetch(url, { signal: controller.signal })]: the request goes out. *)
Definition fetch (url : string) (controller : nat) : Sync unit :=
  record (CFetch url controller).

(** Lines 51-60, the [catch] block. *)
Definition catch_block (symbol : string) (err : string) : Sync unit :=
  console_error ("Pattern check failed for " +:+ symbol +:+ ":") err;;
  _ ← UseToast.toast
        [("title", VStr "Error");
         ("description",
          VStr "Could not reach the server or received an invalid response.");
         ("variant", VStr "destructive")];
  setStockResults (fun prev => obj_set symbol VNull prev).

(** Lines 61-63, the [finally] block. *)
Definition finally_block (symbol : string) : Sync unit :=
  setIsChecking (fun prev => <[symbol := false]> prev).

(** A stretch of the [try] block, under its [catch] and [finally]. *)
Definition in_try (symbol : string) (body : Sync unit) : Sync unit :=
  try_finally (try_catch body (catch_block symbol)) (finally_block symbol).

(** Lines 23-32: the call of [checkPattern], up to [await fetch(...)]. *)
Definition checkPattern (symbol : string) : Sync unit :=
  setIsChecking (fun prev => <[symbol := true]> prev);;
  in_try symbol (
    controller ← new_AbortController;
    timeoutId ← setTimeout (AbortFetch controller) 3000;
    fetch (API_BASE_URL +:+ "/api/pattern?symbol=" +:+ symbol) controller;;
    await (AwaitFetch controller timeoutId)).

(** Lines 30-40: [fetch] has settled, with the status of the response or
    with a rejection; on a 2xx status the code goes on to [await res.json()]. *)
Definition checkPattern_after_fetch
  (symbol : string) (controller timeoutId : nat) (res : Settled nat)
  : Sync unit :=
  in_try symbol (
    match res with
    | Rejected err => throw err
    | Resolved status =>
        clearTimeout timeoutId;;
        if negb (ok status)
        then throw ("API responded " +:+ pretty status)
        else await (AwaitJson controller)
    end).

(** Lines 40-49: [res.json()] has settled, with the parsed body or with a
    rejection. *)
Definition checkPattern_after_json
  (symbol : string) (body : Settled json) : Sync unit :=
  in_try symbol (
    match body with
    | Rejected err => throw err
    | Resolved j =>
        match destructure "pattern_detected" j with
        | None => throw "TypeError"
        | Some pattern_detected =>
            setStockResults (fun prev => obj_set symbol pattern_detected prev);;
            _ ← UseToast.toast
                  [("title",
                    VStr (if truthy pattern_detected
                          then "Cup & Handle Pattern Detected"
                          else "No Pattern Detected"));
                   ("description",
                    VStr ("Finished analyzing " +:+ symbol +:+ "."));
                   ("variant",
                    VStr (if truthy pattern_detected
                          then "default" else "destructive"))];
            mret tt
        end
    end).

(** *** Components/dashboard/StockCard.jsx *)

Record StatusDisplay : Type := mkStatusDisplay {
  icon : string;
  text : string;
  bg : string;
  textColor : string
}.

Definition getStatusDisplay (status isChecking : value) : StatusDisplay :=
  if truthy isChecking then
    mkStatusDisplay "Loader2" "Checking..." "bg-blue-50" "text-blue-700"
  else if is_null status then
    mkStatusDisplay "Clock" "Not checked" "bg-gray-50" "text-gray-500"
  else if is_true status then
    mkStatusDisplay "CheckCircle" "Pattern detected"
                    "bg-emerald-50" "text-emerald-700"
  else if is_str "error" status then
    mkStatusDisplay "XCircle" "Check error" "bg-orange-50" "text-orange-700"
  else
    mkStatusDisplay "XCircle" "No pattern detected" "bg-red-50" "text-red-700".

(** Components/ui/button.jsx: the [button] element gets the class of the
    variant and, through [...props], [disabled] and [onClick]. *)
Record ButtonElement : Type := mkButtonElement {
  variant : string;
  disabled : value;
  onClick : string;
  children : string
}.

Definition Button (variant : string) (disabled : value) (onClick : string)
  (children : string) : ButtonElement :=
  mkButtonElement variant disabled onClick children.

(** The browser gives a [button] the [disabled] attribute, and sends it no
    click, when the property is truthy. *)
Definition dom_disabled (b : ButtonElement) : bool := truthy (disabled b).

Record CardView : Type := mkCardView {
  card_symbol : string;
  statusDisplay : StatusDisplay;
  button : ButtonElement
}.

(** [onCheck] is [() => checkPattern(symbol)]: it is named by its symbol. *)
Definition StockCard (symbol : string) (status isChecking : value)
  (onCheck : string) : CardView :=
  mkCardView symbol
    (getStatusDisplay status isChecking)
    (Button (if is_null status then "default" else "outline")
            isChecking
            onCheck
            (if truthy isChecking then "Checking..."
             else if is_null status then "Check Pattern" else "Check Again")).

(** Lines 83-91: one card for each key of [stockResults]. *)
Definition render (w : World) : list CardView :=
  (fun symbol =>
     StockCard symbol (obj_get symbol (stockResults w))
               (checking symbol w) symbol)
  <$> Object_keys (stockResults w).

End Dashboard.

(** ** The event loop

    What can happen next in the page: a component calls [checkPattern] or
    [toast], the user clicks the button of a card, a pending promise settles,
    a timer comes due, time passes. *)

Import Dashboard.

Inductive Event : Type :=
| Call_checkPattern (symbol : string)
| Call_toast (args : object)
| Click (symbol : string)
| FetchSettles (controller : nat) (res : Settled nat)
| JsonSettles (controller : nat) (body : Settled json)
| TimerFires (h : nat)
| Advance (dt : N).

(** Runs a stretch of an [async] call: a suspension is queued as a task, and
    an error that escapes rejects the promise of the call. *)
Definition run_async (symbol : string) (m : Sync unit) (w : World) : World :=
  match m w with
  | (Ok _, w') => w'
  | (Throw err, w') => with_calls (calls w' ++ [CUnhandledRejection err]) w'
  | (Await p, w') => with_tasks (tasks w' ++ [mkTask symbol p]) w'
  end.

Fixpoint take_task (P : Task -> bool) (ts : list Task)
  : option (Task * list Task) :=
  match ts with
  | [] => None
  | t :: ts' =>
      if P t then Some (t, ts')
      else match take_task P ts' with
           | Some (t', rest) => Some (t', t :: rest)
           | None => None
           end
  end.

Definition awaits_fetch (c : nat) (t : Task) : bool :=
  match awaiting t with
  | AwaitFetch c' _ => Nat.eqb c' c
  | AwaitJson _ => false
  end.

Definition awaits_json (c : nat) (t : Task) : bool :=
  match awaiting t with
  | AwaitFetch _ _ => false
  | AwaitJson c' => Nat.eqb c' c
  end.

(** Resumes the task [t] with what it was waiting for. *)
Definition resume_fetch (t : Task) (res : Settled nat) (w : World) : World :=
  match awaiting t with
  | AwaitFetch c h =>
      run_async (task_symbol t)
                (checkPattern_after_fetch (task_symbol t) c h res) w
  | AwaitJson _ => w
  end.

Definition resume_json (t : Task) (body : Settled json) (w : World) : World :=
  run_async (task_symbol t) (checkPattern_after_json (task_symbol t) body) w.

(** [controller.abort()]: what waits on the request is rejected. *)
Definition abort (c : nat) (w : World) : World :=
  match take_task (fun t => Nat.eqb (task_request t) c) (tasks w) with
  | None => w
  | Some (t, rest) =>
      match awaiting t with
      | AwaitFetch _ _ =>
          resume_fetch t (Rejected "AbortError") (with_tasks rest w)
      | AwaitJson _ =>
          resume_json t (Rejected "AbortError") (with_tasks rest w)
      end
  end.

Definition run_callback (cb : Callback) (w : World) : World :=
  match cb with
  | RemoveToast id => snd (UseToast.remove_toast id w)
  | AbortFetch c => abort c w
  end.

Definition find_timer (h : nat) (w : World) : option Timer :=
  List.find (fun t => Nat.eqb (handle t) h) (timers w).

Definition find_card (symbol : string) (w : World) : option CardView :=
  List.find (fun c => String.eqb (card_symbol c) symbol) (render w).

(** One step of the page; [None] when the event cannot happen in [w]. *)
Definition exec (e : Event) (w : World) : option World :=
  match e with
  | Call_checkPattern symbol =>
      Some (run_async symbol (checkPattern symbol) w)
  | Call_toast args => Some (snd (UseToast.toast args w))
  | Click symbol =>
      match find_card symbol w with
      | Some card =>
          if dom_disabled (button card) then None
          else Some (run_async (onClick (button card))
                               (checkPattern (onClick (button card))) w)
      | None => None
      end
  | FetchSettles c res =>
      match take_task (awaits_fetch c) (tasks w) with
      | Some (t, rest) => Some (resume_fetch t res (with_tasks rest w))
      | None => None
      end
  | JsonSettles c body =>
      match take_task (awaits_json c) (tasks w) with
      | Some (t, rest) => Some (resume_json t body (with_tasks rest w))
      | None => None
      end
  | TimerFires h =>
      match find_timer h w with
      | Some tm =>
          if (due tm <=? now w)%N
          then Some (run_callback (callback tm)
                       (snd (clearTimeout h w)))
          else None
      | None => None
      end
  | Advance dt => Some (with_now (now w + dt)%N w)
  end.

Fixpoint run (es : list Event) (w : World) : option World :=
  match es with
  | [] => Some w
  | e :: es' =>
      match exec e w with
      | Some w' => run es' w'
      | None => None
      end
  end.

(** The page as first rendered, over a given random source. *)
Definition initial (rng : nat -> string) : World :=
  mkWorld tracked ∅ [] [] [] 0%N 0 rng 0 [].

(** ** Layout.jsx: the health check and its banner *)

Module Layout.

(** [import.meta.env.VITE_API_BASE_URL || "http://localhost:5000"]; the
    variable is a string when it is set and [undefined] when it is not. *)
Definition API_BASE_URL (VITE_API_BASE_URL : option string) : string :=
  match VITE_API_BASE_URL with
  | Some s => if truthy (VStr s) then s else "http://localhost:5000"
  | None => "http://localhost:5000"
  end.

Inductive LCall : Type :=
| LFetch (url : string)
| LConsoleError (msg err : string).

Record State : Type := mkState {
  isBackendHealthy : bool;
  showHealthAlert : bool;
  pending : nat;
  lcalls : list LCall
}.

(** Lines 10-11: the initial values of the two [useState]s. *)
Definition initial : State := mkState true false 0 [].

Abbreviation LSync := (Step State unit).

Definition setIsBackendHealthy (v : bool) : LSync unit :=
  modify (fun s => mkState v (showHealthAlert s) (pending s) (lcalls s)).

Definition setShowHealthAlert (v : bool) : LSync unit :=
  modify (fun s => mkState (isBackendHealthy s) v (pending s) (lcalls s)).

Definition lrecord (c : LCall) : LSync unit :=
  modify (fun s =>
    mkState (isBackendHealthy s) (showHealthAlert s) (pending s)
            (lcalls s ++ [c])).

(** Lines 26-30, the [catch] block. *)
Definition catch_block (err : string) : LSync unit :=
  lrecord (LConsoleError "Health check failed:" err);;
  setIsBackendHealthy false;;
  setShowHealthAlert true.

(** Lines 14-18: the call of [checkHealth], up to [await fetch(...)]. The
    request carries [AbortSignal.timeout(10000)]. *)
Definition checkHealth (env : option string) : LSync unit :=
  try_catch
    (lrecord (LFetch (API_BASE_URL env +:+ "/health"));;
     await tt)
    catch_block.

(** Lines 16-30: [fetch] has settled. *)
Definition checkHealth_after_fetch (res : Settled nat) : LSync unit :=
  try_catch
    (match res with
     | Rejected err => throw err
     | Resolved status =>
         if ok status then
           setIsBackendHealthy true;;
           setShowHealthAlert false
         else throw ("Status " +:+ pretty status)
     end)
    catch_block.

(** Line 41: the banner, and with it the dismiss button, is rendered when
    [showHealthAlert && !isBackendHealthy]. *)
Definition banner (s : State) : bool :=
  showHealthAlert s && negb (isBackendHealthy s).

(** Line 53: [onClick={() => setShowHealthAlert(false)}]. *)
Definition dismiss_onClick : LSync unit := setShowHealthAlert false.

(** Lines 102-109: the footer badge. *)
Definition badge (s : State) : string :=
  if isBackendHealthy s then "Healthy" else "Unhealthy".

(** How the poll of a health check can end. *)
Inductive Poll : Type :=
| Responds (status : nat)
| TransportError
| Timeout.

Definition settled (p : Poll) : Settled nat :=
  match p with
  | Responds status => Resolved status
  | TransportError => Rejected "TypeError: Failed to fetch"
  | Timeout => Rejected "TimeoutError"
  end.

Definition succeeds (p : Poll) : bool :=
  match p with
  | Responds status => ok status
  | _ => false
  end.

Inductive Event : Type :=
| Interval
| Settles (p : Poll)
| Dismiss.

Definition with_pending (n : nat) (s : State) : State :=
  mkState (isBackendHealthy s) (showHealthAlert s) n (lcalls s).

(** One step of the component, built with the environment [env]: the
    interval timer calls [checkHealth], the fetch of a pending call settles,
    or the user clicks the dismiss button, which takes a rendered banner. *)
Definition exec (env : option string) (e : Event) (s : State)
  : option State :=
  match e with
  | Interval =>
      match checkHealth env s with
      | (Await _, s') => Some (with_pending (S (pending s')) s')
      | (_, s') => Some s'
      end
  | Settles p =>
      match pending s with
      | O => None
      | S n => Some (snd (checkHealth_after_fetch (settled p)
                            (with_pending n s)))
      end
  | Dismiss =>
      if banner s then Some (snd (dismiss_onClick s)) else None
  end.

(** The user's dismiss action: where there is no button to click, nothing
    happens. *)
Definition dismiss (s : State) : State :=
  match exec None Dismiss s with
  | Some s' => s'
  | None => s
  end.

(** The four combinations of the two flags. *)
Inductive Health : Type :=
| Healthy_Hidden
| Healthy_Visible
| Unhealthy_Visible
| Unhealthy_Hidden.

Definition health (s : State) : Health :=
  match isBackendHealthy s, showHealthAlert s with
  | true, false => Healthy_Hidden
  | true, true => Healthy_Visible
  | false, true => Unhealthy_Visible
  | false, false => Unhealthy_Hidden
  end.

End Layout.

(** ** Vocabulary of the statements *)

Definition is_setIsChecking (c : Call) : bool :=
  match c with CSetIsChecking _ => true | _ => false end.

Definition is_toast (c : Call) : bool :=
  match c with CToast _ => true | _ => false end.

Definition is_fetch (c : Call) : bool :=
  match c with CFetch _ _ => true | _ => false end.

(** The calls made between two states. *)
Definition made (w w' : World) (cs : list Call) : Prop :=
  calls w' = calls w ++ cs.

(** The marker of [symbol] has been cleared, by one call of
    [setIsChecking]. *)
Definition cleared_once (symbol : string) (w w' : World) : Prop :=
  isChecking w' !! symbol = Some false
  ∧ ∃ cs, made w w' cs
      ∧ List.filter is_setIsChecking cs
        = [CSetIsChecking (fun prev => <[symbol := false]> prev)].

(** A settled [fetch] that sends [checkPattern] to its [catch] block. *)
Definition fetch_failed (res : Settled nat) : bool :=
  match res with
  | Resolved status => negb (ok status)
  | Rejected _ => true
  end.

(** A body that the code cannot read: [res.json()] rejects, as it does on
    text that is not JSON, or the parsed value cannot be destructured, as
    [null] cannot. Every other body is read, whatever it holds. *)
Definition unreadable (body : Settled json) : bool :=
  match body with
  | Rejected _ => true
  | Resolved j =>
      match destructure "pattern_detected" j with
      | None => true
      | Some _ => false
      end
  end.

(** The ways a check fails, and the stretch of [checkPattern] that each one
    resumes: a failed transport and the abort of the 3000 ms timer reject
    [fetch], a status outside 200-299 resolves it, and a body comes with
    the settlement of [res.json()]; it is a failure when it is
    [unreadable]. *)
Inductive FailureClass : Type :=
| TransportFailure (err : string)
| ClientTimeout
| BadStatus (status : nat)
| MalformedBody (body : Settled json).

Definition is_failure (f : FailureClass) : bool :=
  match f with
  | BadStatus status => negb (ok status)
  | MalformedBody body => unreadable body
  | _ => true
  end.

Definition fails (symbol : string) (controller timeoutId : nat)
  (f : FailureClass) : Sync unit :=
  match f with
  | TransportFailure err =>
      checkPattern_after_fetch symbol controller timeoutId (Rejected err)
  | ClientTimeout =>
      checkPattern_after_fetch symbol controller timeoutId
        (Rejected "AbortError")
  | BadStatus status =>
      checkPattern_after_fetch symbol controller timeoutId (Resolved status)
  | MalformedBody body => checkPattern_after_json symbol body
  end.

(** The toast of the [catch] block, with the identifier drawn in [w]. *)
Definition error_toast (w : World) : object :=
  UseToast.newToast (JS.substring 2 9 (rng w (draws w)))
    (VStr "Error")
    (VStr "Could not reach the server or received an invalid response.")
    (VStr "destructive").

(** The argument of [toast] in the [catch] block. *)
Definition generic_failure : object :=
  [("title", VStr "Error");
   ("description",
    VStr "Could not reach the server or received an invalid response.");
   ("variant", VStr "destructive")].

(** The argument of [toast] after a decision [pattern_detected]. *)
Definition decision (symbol : string) (pattern_detected : value) : object :=
  [("title",
    VStr (if truthy pattern_detected
          then "Cup & Handle Pattern Detected" else "No Pattern Detected"));
   ("description", VStr ("Finished analyzing " +:+ symbol +:+ "."));
   ("variant",
    VStr (if truthy pattern_detected then "default" else "destructive"))].

(** Between [w] and [w'] there was one call of [toast], with [args], and it
    put [t] at the end of the toasts. *)
Definition toasted (w w' : World) (args t : object) : Prop :=
  toasts w' = toasts w ++ [t]
  ∧ ∃ cs, made w w' cs ∧ List.filter is_toast cs = [CToast args].

(** What the card of [symbol] shows in [w]. *)
Definition shown (symbol : string) (w : World) : string :=
  text (getStatusDisplay (obj_get symbol (stockResults w))
                         (checking symbol w)).

(** A random source to run examples with, and a page in which a check of
    MSFT (controller 0, timer 1) waits for its response. *)
Definition sample_rng (n : nat) : string := "0." +:+ pretty n +:+ "k3x9q2m".

Definition sample_pending : World :=
  run_async "MSFT" (checkPattern "MSFT") (initial sample_rng).

(** The identifiers of the toasts on the page, in order. *)
Definition ids (w : World) : list value := obj_get "id" <$> toasts w.


(** No marker is left behind: a symbol whose marker is [true] has a call of
    [checkPattern] waiting. *)
Definition no_leak (w : World) : Prop :=
  ∀ symbol,
    isChecking w !! symbol = Some true →
    ∃ t, t ∈ tasks w ∧ task_symbol t = symbol.

(** The handles of the pending timers are distinct and were all handed
    out already. *)
Definition timers_ok (w : World) : Prop :=
  Forall (fun tm => (handle tm < nextId w)%nat) (timers w)
  ∧ NoDup (handle <$> timers w).

(** From [w] to [w'] some timers were cleared and some were added under
    fresh handles. *)
Definition grows (w w' : World) : Prop :=
  ∃ f added,
    timers w' = List.filter f (timers w) ++ added
    ∧ (nextId w ≤ nextId w')%nat
    ∧ Forall (fun tm => (nextId w ≤ handle tm < nextId w')%nat) added
    ∧ NoDup (handle <$> added).

(** ** utils.js, and the routes of main.jsx *)

Module Utils.

(** [String.prototype.toLowerCase] on ASCII text: the letters A-Z move to
    a-z and every other character stays. *)
Definition lower (a : Ascii.ascii) : Ascii.ascii :=
  let n := Ascii.nat_of_ascii a in
  if (65 <=? n)%nat && (n <=? 90)%nat
  then Ascii.ascii_of_nat (n + 32) else a.

Fixpoint toLowerCase (s : string) : string :=
  match s with
  | EmptyString => EmptyString
  | String a s' => String (lower a) (toLowerCase s')
  end.

Fixpoint ascii_text (s : string) : bool :=
  match s with
  | EmptyString => true
  | String a s' => (Ascii.nat_of_ascii a <? 128)%nat && ascii_text s'
  end.

(** [createPageUrl(pageName)] *)
Definition createPageUrl (pageName : string) : string :=
  if String.eqb pageName "Home" then "/"
  else "/" +:+ toLowerCase pageName.

(** [cn(...classes)]: [classes.filter(Boolean).join(' ')]. The text that
    [join] makes of an element, [ToString], is the language's and is a
    parameter. *)
Definition cn (ToString : value -> string) (classes : list value) : string :=
  String.concat " " (ToString <$> List.filter truthy classes).

(** A [ToString] that is right on strings, for the examples. *)
Definition sample_ToString (v : value) : string :=
  match v with VStr s => s | _ => "" end.

End Utils.

Module Main.

(** The two routes of [createBrowserRouter]: the path, and the
    [currentPageName] handed to [Layout]. *)
Record Route : Type := mkRoute {
  path : string;
  currentPageName : string
}.

Definition router : list Route :=
  [mkRoute "/" "Home"; mkRoute "/dashboard" "Dashboard"].

(** The [to] of the links of the application: the two [NavLink]s of
    Layout.jsx and the button of the home page. *)
Definition links : list string := ["Home"; "Dashboard"; "Dashboard"].

(** Layout.jsx, lines 70-83: the [to] of the two [NavLink]s of the header,
    and their [isActive={currentPageName === to}]. *)
Definition nav : list string := ["Home"; "Dashboard"].

Definition isActive (currentPageName to : string) : bool :=
  String.eqb currentPageName to.

End Main.

(** ** Vocabulary of the further statements *)

Definition is_unhandled (c : Call) : bool :=
  match c with CUnhandledRejection _ => true | _ => false end.

(** The two resumptions of [checkPattern]. *)
Inductive Resumption : Type :=
| FetchArrives (c h : nat) (res : Settled nat)
| JsonArrives (body : Settled json).

Definition resume (symbol : string) (r : Resumption) : Sync unit :=
  match r with
  | FetchArrives c h res => checkPattern_after_fetch symbol c h res
  | JsonArrives body => checkPattern_after_json symbol body
  end.

(** The resumptions that end the call: all but a 2xx response. *)
Definition ends (r : Resumption) : bool :=
  match r with
  | FetchArrives _ _ res => fetch_failed res
  | JsonArrives _ => true
  end.

(** What a resumption that ends the call leaves as the result of the
    symbol. *)
Definition result_of (r : Resumption) : value :=
  match r with
  | JsonArrives (Resolved j) =>
      match destructure "pattern_detected" j with
      | Some pattern_detected => pattern_detected
      | None => VNull
      end
  | _ => VNull
  end.

(** What the user and the network can do: everything but a call of
    [checkPattern] that does not come from a card. *)
Definition user_event (e : Event) : bool :=
  match e with Call_checkPattern _ => false | _ => true end.

(** The requests of the waiting calls were all made already. *)
Definition tasks_fresh (w : World) : Prop :=
  ∀ t, t ∈ tasks w → (task_request t < nextId w)%nat.

(** The [timeoutId] of a call that waits for [fetch] names its own abort
    timer, if it names a pending timer at all. *)
Definition abort_handles_ok (w : World) : Prop :=
  ∀ t c h,
    t ∈ tasks w → awaiting t = AwaitFetch c h →
    (h < nextId w)%nat
    ∧ ∀ tm, tm ∈ timers w → handle tm = h → callback tm = AbortFetch c.

(** Every toast on the page has a pending timer that removes it, due at
    most 3000 ms from now. *)
Definition toasts_have_timers (w : World) : Prop :=
  ∀ t, t ∈ toasts w →
    ∃ id tm,
      obj_get "id" t = VStr id
      ∧ tm ∈ timers w
      ∧ callback tm = RemoveToast id
      ∧ (due tm ≤ now w + 3000)%N.

Definition page_ok (w : World) : Prop :=
  timers_ok w ∧ tasks_fresh w ∧ abort_handles_ok w ∧ toasts_have_timers w.

(** Runs of the health monitor. *)
Fixpoint Layout_run (env : option string) (es : list Layout.Event)
  (s : Layout.State) : option Layout.State :=
  match es with
  | [] => Some s
  | e :: es' =>
      match Layout.exec env e s with
      | Some s' => Layout_run env es' s'
      | None => None
      end
  end.

(** The poll that settled last in a run, and the last event of a run that
    settles a poll or dismisses the banner. *)
Fixpoint last_settled (es : list Layout.Event) : option Layout.Poll :=
  match es with
  | [] => None
  | e :: es' =>
      match last_settled es' with
      | Some p => Some p
      | None =>
          match e with
          | Layout.Settles p => Some p
          | _ => None
          end
      end
  end.

Fixpoint last_shown (es : list Layout.Event) : option Layout.Event :=
  match es with
  | [] => None
  | e :: es' =>
      match last_shown es' with
      | Some e' => Some e'
      | None =>
          match e with
          | Layout.Interval => None
          | _ => Some e
          end
      end
  end.

(** The page draws the cards of the seven symbols it started with, and
    every waiting call is for one of them. *)
Definition cards_ok (w : World) : Prop :=
  Object_keys (stockResults w) = Object_keys tracked
  ∧ ∀ t, t ∈ tasks w → task_symbol t ∈ Object_keys tracked.

(** No promise of the page has been rejected without a handler. *)
Definition quiet (w : World) : Prop :=
  Forall (fun c => is_unhandled c = false) (calls w).

(** The shape of a step that adds one toast with its timer. *)
Definition adds_toast (w w' : World) : Prop :=
  ∃ id t,
    timers w'
    = timers w ++ [mkTimer (nextId w) (now w + 3000) (RemoveToast id)]
    ∧ toasts w' = toasts w ++ [t]
    ∧ obj_get "id" t = VStr id
    ∧ tasks w' = tasks w
    ∧ nextId w' = S (nextId w)
    ∧ now w' = now w.

(** The events of the health monitor, and its calls, by kind. *)
Definition is_tick (e : Layout.Event) : bool :=
  match e with Layout.Interval => true | _ => false end.

Definition is_settle (e : Layout.Event) : bool :=
  match e with Layout.Settles _ => true | _ => false end.

Definition is_failed_poll (e : Layout.Event) : bool :=
  match e with Layout.Settles p => negb (Layout.succeeds p) | _ => false end.

Definition is_LFetch (c : Layout.LCall) : bool :=
  match c with Layout.LFetch _ => true | _ => false end.

Definition is_LConsoleError (c : Layout.LCall) : bool :=
  match c with Layout.LConsoleError _ _ => true | _ => false end.

(** How many calls of a kind the page has made. *)
Definition is_setStockResults (c : Call) : bool :=
  match c with CSetStockResults _ => true | _ => false end.

Definition tally (P : Call -> bool) (w : World) : nat :=
  length (List.filter P (calls w)).

Definition is_Call_toast (e : Event) : bool :=
  match e with Call_toast _ => true | _ => false end.

(** The books of the page: against the requests sent stand the calls that
    wait and, for each call that has ended, one toast, one update of the
    results and two updates of the markers. [direct] counts the toasts
    that did not come from a check. *)
Definition balanced (direct : nat) (w : World) : Prop :=
  tally is_toast w + length (tasks w) = tally is_fetch w + direct
  ∧ tally is_setStockResults w + length (tasks w) = tally is_fetch w
  ∧ tally is_setIsChecking w + length (tasks w) = 2 * tally is_fetch w.

(** A session: two checks, a toast of another component, the answer and
    the body of the first check, the timeout of the second, a third
    check. *)
Definition sample_session : list Event :=
  [Click "AAPL"; Click "MSFT"; Call_toast generic_failure;
   FetchSettles 0 (Resolved 200); Advance 3000%N; TimerFires 3;
   JsonSettles 0 (Resolved (JObj [("pattern_detected", JBool true)]));
   Click "TSLA"].

(** An abort timer and the call it belongs to: the timer was made right
    after its controller; a call that waits for the response names that
    timer; and once the response is there the timer is gone. *)
Definition aborts_paired (w : World) : Prop :=
  (∀ tm c, tm ∈ timers w → callback tm = AbortFetch c → handle tm = S c)
  ∧ (∀ t c h, t ∈ tasks w → awaiting t = AwaitFetch c h →
       h = S c ∧ (S c < nextId w)%nat)
  ∧ (∀ t c, t ∈ tasks w → awaiting t = AwaitJson c →
       (S c < nextId w)%nat ∧ ∀ tm, tm ∈ timers w → handle tm ≠ S c)
  ∧ (∀ tm, tm ∈ timers w → (handle tm < nextId w)%nat).

(** A page on which a check was refused by the network and has left its
    abort timer behind, 3000 ms later. *)
Definition sample_refused : list Event :=
  [Click "MSFT"; FetchSettles 0 (Rejected "TypeError: Failed to fetch");
   Advance 3000%N].

Definition sample_stale : World :=
  default (initial sample_rng) (run sample_refused (initial sample_rng)).

(** ** Properties *)

Ltac step_unfold :=
  unfold checkPattern, checkPattern_after_fetch, checkPattern_after_json,
    in_try, Dashboard.catch_block, finally_block,
    UseToast.toast, UseToast.remove_toast,
    setIsChecking, setStockResults, setToasts, record, console_error, fetch,
    Math_random_toString36, setTimeout, clearTimeout, new_AbortController,
    fresh, try_finally, try_catch, mbind, mret, Step_bind, Step_ret, bind,
    ret, throw, await, modify, gets.

Ltac step_run := step_unfold; cbn.

Lemma obj_get_set_eq (k : string) (v : value) (o : object) :
  obj_get k (obj_set k v o) = v.
Proof.
  induction o as [|[k' v'] o IH]; cbn.
  - by rewrite String.eqb_refl.
  - destruct (String.eqb k' k) eqn:E; cbn.
    + by rewrite String.eqb_refl.
    + by rewrite E.
Qed.

Lemma obj_get_set_ne (k k' : string) (v : value) (o : object) :
  k ≠ k' → obj_get k' (obj_set k v o) = obj_get k' o.
Proof.
  intros Hne. induction o as [|[k0 v0] o IH]; cbn.
  - destruct (String.eqb k k') eqn:E; [|done].
    by apply String.eqb_eq in E.
  - destruct (String.eqb k0 k) eqn:E; cbn.
    + apply String.eqb_eq in E as ->.
      destruct (String.eqb k k') eqn:E'; [|done].
      by apply String.eqb_eq in E'.
    + by rewrite IH.
Qed.

(** C1. [checkPattern(symbol)] begins by setting the marker of [symbol], and
    every way in which the call can end, after [fetch] or after
    [res.json()], clears the marker by exactly one call of [setIsChecking];
    nothing is thrown past the call. The one resumption that does not end
    the call, a 2xx response, leaves the marker as it is. *)
Theorem checkPattern_clears_marker (symbol : string) (w : World) :
  (∃ c h w' cs,
      checkPattern symbol w = (Await (AwaitFetch c h), w')
      ∧ isChecking w' !! symbol = Some true
      ∧ made w w' (CSetIsChecking (fun prev => <[symbol := true]> prev) :: cs)
      ∧ List.filter is_setIsChecking cs = [])
  ∧ (∀ c h res, ∃ w',
        if fetch_failed res
        then checkPattern_after_fetch symbol c h res w = (Ok tt, w')
             ∧ cleared_once symbol w w'
        else checkPattern_after_fetch symbol c h res w
             = (Await (AwaitJson c), w')
             ∧ isChecking w' = isChecking w ∧ made w w' [])
  ∧ (∀ body, ∃ w',
        checkPattern_after_json symbol body w = (Ok tt, w')
        ∧ cleared_once symbol w w').
Proof.
  split; [|split].
  - eexists _, _, _, _. step_run. split; [reflexivity|]. cbn.
    split; [apply lookup_insert_eq|]. unfold made; cbn.
    split; [by rewrite <- app_assoc|done].
  - intros c h [status|err]; cbn.
    + destruct (ok status) eqn:Hok; cbn; eexists; step_run; rewrite Hok; cbn.
      * repeat split. unfold made; cbn. by rewrite app_nil_r.
      * split; [reflexivity|]. split; cbn; [apply lookup_insert_eq|].
        eexists. unfold made; cbn. split.
        -- rewrite <- !app_assoc. reflexivity.
        -- reflexivity.
    + eexists. step_run. split; [reflexivity|].
      split; cbn; [apply lookup_insert_eq|].
      eexists. unfold made; cbn. split.
      * rewrite <- !app_assoc. reflexivity.
      * reflexivity.
  - intros [j|err].
    + destruct (destructure "pattern_detected" j) as [pd|] eqn:Hd;
        eexists; step_run; rewrite Hd; cbn;
        (split; [reflexivity|]);
        (split; cbn; [apply lookup_insert_eq|]);
        eexists; unfold made; cbn;
        (split; [rewrite <- !app_assoc; reflexivity|reflexivity]).
    + eexists. step_run. split; [reflexivity|].
      split; cbn; [apply lookup_insert_eq|].
      eexists. unfold made; cbn. split.
      * rewrite <- !app_assoc. reflexivity.
      * reflexivity.
Qed.

(** C2, as the code has it. Whatever the class of the failure (transport,
    the client's timeout, a status outside 200-299, a body that cannot be
    read: one that is not JSON, or [null]), the call ends normally, the
    result of [symbol] is reset to [null], which the card shows as "Not
    checked", and exactly one toast is added: the one of the [catch] block,
    with the "destructive" look and the generic message. *)
Theorem check_failure_resets
  (symbol : string) (c h : nat) (f : FailureClass) (w : World) :
  is_failure f = true →
  ∃ w',
    fails symbol c h f w = (Ok tt, w')
    ∧ stockResults w' = obj_set symbol VNull (stockResults w)
    ∧ obj_get symbol (stockResults w') = VNull
    ∧ shown symbol w' = "Not checked"
    ∧ toasted w w' generic_failure (error_toast w)
    ∧ UseToast.severity (error_toast w) = UseToast.alert.
Proof.
  intros Hf.
  cut (∃ w', fails symbol c h f w = (Ok tt, w')
         ∧ stockResults w' = obj_set symbol VNull (stockResults w)
         ∧ isChecking w' !! symbol = Some false
         ∧ toasted w w' generic_failure (error_toast w)).
  { intros (w' & Hm & Hres & Hchk & Htoasted).
    exists w'. split; [done|]. split; [done|].
    assert (obj_get symbol (stockResults w') = VNull) as Hnull
      by (rewrite Hres; apply obj_get_set_eq).
    split; [done|]. split; [|done].
    unfold shown, checking. by rewrite Hnull, Hchk. }
  assert (Hfin : ∀ res, fetch_failed res = true →
    ∃ w', checkPattern_after_fetch symbol c h res w = (Ok tt, w')
      ∧ stockResults w' = obj_set symbol VNull (stockResults w)
      ∧ isChecking w' !! symbol = Some false
      ∧ toasted w w' generic_failure (error_toast w)).
  { intros [status|err] Hres; cbn in Hres.
    - apply negb_true_iff in Hres.
      eexists. step_run. rewrite Hres. cbn. split; [reflexivity|]. cbn.
      repeat split; [apply lookup_insert_eq|].
      eexists. unfold made; cbn. split; [by rewrite <- !app_assoc|done].
    - eexists. step_run. split; [reflexivity|]. cbn.
      repeat split; [apply lookup_insert_eq|].
      eexists. unfold made; cbn. split; [by rewrite <- !app_assoc|done]. }
  destruct f as [err| |status|[j|err]]; cbn in Hf |- *;
    try (by apply Hfin).
  - destruct j; try discriminate.
    eexists. step_run. split; [reflexivity|]. cbn.
    repeat split; [apply lookup_insert_eq|].
    eexists. unfold made; cbn. split; [by rewrite <- !app_assoc|done].
  - eexists. step_run. split; [reflexivity|]. cbn.
    repeat split; [apply lookup_insert_eq|].
    eexists. unfold made; cbn. split; [by rewrite <- !app_assoc|done].
Qed.

Lemma check_failure_resets_witness :
  ∃ w',
    fails "MSFT" 0 1 ClientTimeout sample_pending = (Ok tt, w')
    ∧ stockResults w' = obj_set "MSFT" VNull (stockResults sample_pending)
    ∧ obj_get "MSFT" (stockResults w') = VNull
    ∧ shown "MSFT" w' = "Not checked"
    ∧ toasted sample_pending w' generic_failure (error_toast sample_pending)
    ∧ UseToast.severity (error_toast sample_pending) = UseToast.alert.
Proof.
  apply (check_failure_resets "MSFT" 0 1 ClientTimeout sample_pending).
  reflexivity.
Defined.

(** C2, as stated, fails: a 2xx body that parses and does not have the
    shape the page expects is no failure for the code. On the body
    [{"error": "boom"}] the check of AAPL ends in the success branch: the
    result is [undefined], not [null], the card says "No pattern detected",
    and the one toast is the toast of a finished analysis, not the generic
    failure toast. *)
Lemma wrong_shape_body_is_no_failure :
  ∃ w' t,
    checkPattern_after_json "AAPL"
      (Resolved (JObj [("error", JStr "boom")])) (initial sample_rng)
    = (Ok tt, w')
    ∧ unreadable (Resolved (JObj [("error", JStr "boom")])) = false
    ∧ obj_get "AAPL" (stockResults w') = VUndefined
    ∧ obj_get "AAPL" (stockResults w') ≠ VNull
    ∧ shown "AAPL" w' = "No pattern detected"
    ∧ toasts w' = [t]
    ∧ obj_get "title" t = VStr "No Pattern Detected"
    ∧ obj_get "description" t = VStr "Finished analyzing AAPL."
    ∧ ¬ toasted (initial sample_rng) w' generic_failure
          (error_toast (initial sample_rng)).
Proof.
  exists (snd (checkPattern_after_json "AAPL"
                 (Resolved (JObj [("error", JStr "boom")]))
                 (initial sample_rng))),
         (UseToast.newToast "0k3x9q2" (VStr "No Pattern Detected")
            (VStr "Finished analyzing AAPL.") (VStr "destructive")).
  split; [vm_compute; reflexivity|]. split; [reflexivity|].
  split; [vm_compute; reflexivity|].
  split; [vm_compute; discriminate|].
  split; [vm_compute; reflexivity|].
  split; [vm_compute; reflexivity|].
  split; [reflexivity|]. split; [reflexivity|].
  intros [Htoasts _]. vm_compute in Htoasts. discriminate.
Qed.



Ltac layout_run :=
  unfold Layout.checkHealth, Layout.checkHealth_after_fetch,
    Layout.catch_block, Layout.dismiss_onClick, Layout.setIsBackendHealthy,
    Layout.setShowHealthAlert, Layout.lrecord,
    try_catch, mbind, mret, Step_bind, Step_ret, bind, ret, throw, await,
    modify, gets; cbn.

(** C4. The health monitor starts healthy with the banner hidden; a poll that
    ends with a 2xx response leads to healthy and hidden from every state, and
    a poll that ends otherwise (another status, a transport error, the
    timeout) leads to unhealthy and visible from every state, the state
    after a dismissal included. Nothing is thrown past [checkHealth]. *)
Theorem health_transitions (s : Layout.State) (p : Layout.Poll) :
  Layout.health Layout.initial = Layout.Healthy_Hidden
  ∧ ∃ s',
      Layout.checkHealth_after_fetch (Layout.settled p) s = (Ok tt, s')
      ∧ Layout.health s'
        = (if Layout.succeeds p
           then Layout.Healthy_Hidden else Layout.Unhealthy_Visible)
      ∧ Layout.isBackendHealthy s' = Layout.succeeds p
      ∧ Layout.showHealthAlert s' = negb (Layout.succeeds p).
Proof.
  split; [reflexivity|].
  destruct p as [status| |]; cbn.
  - destruct (ok status) eqn:Hok; eexists; layout_run; rewrite Hok; cbn;
      by repeat split.
  - eexists. layout_run. by repeat split.
  - eexists. layout_run. by repeat split.
Qed.

(** C5. The dismiss button exists exactly when the monitor is unhealthy
    with the banner visible; clicking it hides the banner and leaves
    [isBackendHealthy] as it was; in every other state there is no button,
    and the user's dismissal changes nothing. The handler itself only ever
    writes [showHealthAlert]. *)
Theorem dismiss_hides_banner (s : Layout.State) :
  Layout.isBackendHealthy (Layout.dismiss s) = Layout.isBackendHealthy s
  ∧ Layout.isBackendHealthy (snd (Layout.dismiss_onClick s))
    = Layout.isBackendHealthy s
  ∧ Layout.showHealthAlert (snd (Layout.dismiss_onClick s)) = false
  ∧ match Layout.health s with
    | Layout.Unhealthy_Visible =>
        Layout.banner s = true
        ∧ (∀ env,
             Layout.exec env Layout.Dismiss s = Some (Layout.dismiss s))
        ∧ Layout.health (Layout.dismiss s) = Layout.Unhealthy_Hidden
    | _ =>
        Layout.banner s = false
        ∧ (∀ env, Layout.exec env Layout.Dismiss s = None)
        ∧ Layout.dismiss s = s
    end.
Proof.
  destruct s as [[] [] n l]; cbn; by repeat split.
Qed.

(** The property of section 8 of the specification: dismiss while unhealthy,
    then a failed poll, then a successful one. *)
Example dismiss_then_polls :
  let s0 := Layout.mkState false true 1 [] in
  let s1 := Layout.dismiss s0 in
  let s2 := snd (Layout.checkHealth_after_fetch
                   (Layout.settled Layout.Timeout) s1) in
  let s3 := snd (Layout.checkHealth_after_fetch
                   (Layout.settled (Layout.Responds 200)) s2) in
  Layout.health s1 = Layout.Unhealthy_Hidden
  ∧ Layout.health s2 = Layout.Unhealthy_Visible
  ∧ Layout.health s3 = Layout.Healthy_Hidden.
Proof. by repeat split. Qed.

(** *** The toasts *)

(** C6, as the code has it. A call of [toast] always completes; it puts the
    new toast at the end of the list and adds exactly one timer, due 3000 ms
    from now, that removes the toasts of that identifier; the rest of the
    page is untouched. The call evaluates to [undefined]: the identifier is
    not handed back. *)
Theorem toast_enqueues (args : object) (w : World) :
  ∃ w' t,
    UseToast.toast args w = (Ok VUndefined, w')
    ∧ toasts w' = toasts w ++ [t]
    ∧ obj_get "id" t = VStr (JS.substring 2 9 (rng w (draws w)))
    ∧ timers w'
      = timers w
        ++ [mkTimer (nextId w) (now w + 3000)
                    (RemoveToast (JS.substring 2 9 (rng w (draws w))))]
    ∧ stockResults w' = stockResults w
    ∧ isChecking w' = isChecking w
    ∧ tasks w' = tasks w
    ∧ now w' = now w.
Proof. eexists _, _. step_run. by repeat split. Qed.

(** C6, as stated, fails: on the first toast of a fresh page the call
    evaluates to [undefined] while the toast it made has the identifier
    "0k3x9q2". *)
Lemma toast_returns_no_id :
  ∃ w' t,
    UseToast.toast generic_failure (initial sample_rng) = (Ok VUndefined, w')
    ∧ toasts w' = [t]
    ∧ obj_get "id" t = VStr "0k3x9q2"
    ∧ VUndefined ≠ obj_get "id" t.
Proof.
  exists (snd (UseToast.toast generic_failure (initial sample_rng))),
         (error_toast (initial sample_rng)).
  split; [reflexivity|]. split; [reflexivity|].
  split; [reflexivity|]. intros H. vm_compute in H. discriminate.
Qed.

(** C8, as the code has it. The toast that [toast] makes is the object
    [{ id, title, description, variant }] and has no other property: [id] is
    the string drawn from the random source, [title] and [description] are
    the caller's, [variant] is the caller's and "default" when the caller
    gave none; it is drawn as an alert, with the red border, exactly when
    the variant is "destructive". When the drawn identifier is not on the
    page, the identifiers on the page stay distinct. *)
Theorem toast_record (args : object) (w : World) :
  ∃ w' t,
    UseToast.toast args w = (Ok VUndefined, w')
    ∧ toasts w' = toasts w ++ [t]
    ∧ Object_keys t = ["id"; "title"; "description"; "variant"]
    ∧ obj_get "id" t = VStr (JS.substring 2 9 (rng w (draws w)))
    ∧ obj_get "title" t = obj_get "title" args
    ∧ obj_get "description" t = obj_get "description" args
    ∧ obj_get "variant" t
      = match obj_get "variant" args with
        | VUndefined => VStr "default"
        | v => v
        end
    ∧ UseToast.view_border (UseToast.render_toast t)
      = match UseToast.severity t with
        | UseToast.alert => "border-red-500"
        | UseToast.normal => "border-gray-200"
        end
    ∧ (VStr (JS.substring 2 9 (rng w (draws w))) ∉ ids w →
       NoDup (ids w) → NoDup (ids w')).
Proof.
  eexists _, _. step_run. repeat split.
  { unfold UseToast.severity. cbn.
    by destruct (is_str "destructive" _). }
  intros Hfresh Hnodup. unfold ids in *. cbn.
  rewrite fmap_app. cbn. apply NoDup_app. split; [done|]. split.
  - intros x Hx Hin. apply list_elem_of_singleton in Hin. by subst.
  - apply NoDup_singleton.
Qed.

Lemma toast_record_witness :
  ∃ w' t,
    UseToast.toast (decision "AAPL" VTrue)
      (with_now 1000%N
         (snd (UseToast.toast generic_failure (initial sample_rng))))
    = (Ok VUndefined, w')
    ∧ toasts w' = [error_toast (initial sample_rng); t]
    ∧ Object_keys t = ["id"; "title"; "description"; "variant"]
    ∧ obj_get "id" t = VStr "1k3x9q2"
    ∧ obj_get "variant" t = VStr "default"
    ∧ NoDup (ids w').
Proof.
  destruct (toast_record (decision "AAPL" VTrue)
              (with_now 1000%N
                 (snd (UseToast.toast generic_failure (initial sample_rng)))))
    as (w' & t & Hrun & Htoasts & Hkeys & Hid & _ & _ & Hvariant & _
        & Hnodup).
  exists w', t. repeat split; try done.
  apply Hnodup.
  - vm_compute. intros Hin. apply list_elem_of_singleton in Hin. done.
  - vm_compute. apply NoDup_singleton.
Defined.

(** C8, as stated, fails: the toast made on a fresh page has the four
    properties [id], [title], [description], [variant] and no
    [createdAt]. *)
Lemma toast_has_no_createdAt :
  ∃ w' t,
    UseToast.toast generic_failure (initial sample_rng) = (Ok VUndefined, w')
    ∧ toasts w' = [t]
    ∧ Object_keys t = ["id"; "title"; "description"; "variant"]
    ∧ ("createdAt" ∉ Object_keys t)
    ∧ obj_get "createdAt" t = VUndefined.
Proof.
  exists (snd (UseToast.toast generic_failure (initial sample_rng))),
         (error_toast (initial sample_rng)).
  split; [reflexivity|]. split; [reflexivity|].
  split; [reflexivity|]. split; [|reflexivity].
  vm_compute. intros Hin.
  repeat (apply elem_of_cons in Hin as [Hin|Hin]; [discriminate|]).
  by apply not_elem_of_nil in Hin.
Qed.


Lemma filter_all {A} (f : A → bool) (l : list A) :
  (∀ x, x ∈ l → f x = true) → List.filter f l = l.
Proof.
  induction l as [|x l IH]; intros Hall; cbn; [done|].
  rewrite Hall by apply list_elem_of_here.
  f_equal. apply IH. intros y Hy. apply Hall. by apply list_elem_of_further.
Qed.

Lemma sublist_filter_bool {A} (f : A → bool) (l : list A) :
  List.filter f l `sublist_of` l.
Proof.
  induction l as [|x l IH]; cbn; [constructor|].
  destruct (f x); by constructor.
Qed.











(** *** The base address *)

Lemma Layout_API_BASE_URL_spec (env : option string) :
  Layout.API_BASE_URL env
  = match env with
    | Some "" | None => "http://localhost:5000"
    | Some s => s
    end.
Proof. by destruct env as [[|a s]|]. Qed.

Lemma checkPattern_url (symbol : string) (w : World) :
  ∃ cs c,
    made w (snd (checkPattern symbol w)) cs
    ∧ List.filter is_fetch cs
      = [CFetch ("http://localhost:5000/api/pattern?symbol=" +:+ symbol) c].
Proof.
  eexists _, _. unfold made. step_run. split.
  - by rewrite <- app_assoc.
  - reflexivity.
Qed.

(** C9 does not hold of the code. With [VITE_API_BASE_URL] set to
    "https://api.example.com", the health check of Layout.jsx goes to that
    address, and the pattern check of Dashboard.jsx, whose [API_BASE_URL] is a
    constant, still goes to "http://localhost:5000". *)
Theorem pattern_check_ignores_override :
  (∃ s',
      Layout.checkHealth (Some "https://api.example.com") Layout.initial
      = (Await tt, s')
      ∧ Layout.lcalls s' = [Layout.LFetch "https://api.example.com/health"])
  ∧ (∃ w',
        checkPattern "AAPL" (initial sample_rng)
        = (Await (AwaitFetch 0 1), w')
        ∧ calls w'
          = [CSetIsChecking (fun prev => <["AAPL" := true]> prev);
             CFetch "http://localhost:5000/api/pattern?symbol=AAPL" 0]).
Proof.
  split.
  - by eexists.
  - by eexists.
Qed.

(** *** The button of a card *)

Lemma find_card_tracked (symbol : string) (w : World) :
  symbol ∈ Object_keys (stockResults w) →
  find_card symbol w
  = Some (StockCard symbol (obj_get symbol (stockResults w))
                    (checking symbol w) symbol).
Proof.
  unfold find_card, render.
  generalize (Object_keys (stockResults w)) as ks.
  induction ks as [|k ks IH]; intros Hin.
  - by apply not_elem_of_nil in Hin.
  - cbn. destruct (String.eqb k symbol) eqn:E.
    + by apply String.eqb_eq in E as ->.
    + apply IH. apply elem_of_cons in Hin as [->|Hin]; [|done].
      by rewrite String.eqb_refl in E.
Qed.

(** C10. While the marker of a tracked symbol is [true], the button of its
    card is rendered with [disabled={true}], the browser sends it no click,
    and so no check of that symbol starts from the card; [checkPattern]
    itself has no such guard and starts a second check when called. *)
Theorem checking_disables_button (symbol : string) (w : World) :
  symbol ∈ Object_keys (stockResults w) →
  isChecking w !! symbol = Some true →
  (∃ card,
      find_card symbol w = Some card
      ∧ card_symbol card = symbol
      ∧ disabled (button card) = VTrue
      ∧ dom_disabled (button card) = true
      ∧ text (statusDisplay card) = "Checking...")
  ∧ Forall (fun card =>
              card_symbol card = symbol → disabled (button card) = VTrue)
           (render w)
  ∧ exec (Click symbol) w = None
  ∧ ∃ w',
      exec (Call_checkPattern symbol) w = Some w'
      ∧ tasks w'
        = tasks w ++ [mkTask symbol (AwaitFetch (nextId w) (S (nextId w)))].
Proof.
  intros Htracked Hmarker.
  assert (checking symbol w = VTrue) as Hchecking
    by (unfold checking; by rewrite Hmarker).
  pose proof (find_card_tracked symbol w Htracked) as Hcard.
  split; [|split; [|split]].
  - eexists. split; [exact Hcard|]. cbn. rewrite Hchecking. by repeat split.
  - unfold render. apply Forall_fmap, Forall_forall. intros k _. cbn.
    by intros ->.
  - cbn [exec]. rewrite Hcard. cbn. by rewrite Hchecking.
  - eexists. split; [reflexivity|]. unfold run_async. by step_run.
Qed.

Lemma checking_disables_button_witness :
  (∃ card,
      find_card "MSFT" sample_pending = Some card
      ∧ card_symbol card = "MSFT"
      ∧ disabled (button card) = VTrue
      ∧ dom_disabled (button card) = true
      ∧ text (statusDisplay card) = "Checking...")
  ∧ Forall (fun card =>
              card_symbol card = "MSFT" → disabled (button card) = VTrue)
           (render sample_pending)
  ∧ exec (Click "MSFT") sample_pending = None
  ∧ ∃ w',
      exec (Call_checkPattern "MSFT") sample_pending = Some w'
      ∧ tasks w'
        = tasks sample_pending
          ++ [mkTask "MSFT" (AwaitFetch (nextId sample_pending)
                                        (S (nextId sample_pending)))].
Proof.
  apply (checking_disables_button "MSFT" sample_pending).
  - vm_compute. apply list_elem_of_further, list_elem_of_here.
  - reflexivity.
Defined.

(** *** The page as a whole *)

Lemma take_task_spec (P : Task → bool) (ts rest : list Task) (t : Task) :
  take_task P ts = Some (t, rest) →
  P t = true ∧ ∀ x, x ∈ ts ↔ x = t ∨ x ∈ rest.
Proof.
  revert rest. induction ts as [|t0 ts IH]; intros rest; cbn; [done|].
  destruct (P t0) eqn:HP.
  - intros [= -> ->]. split; [done|]. intros x. apply elem_of_cons.
  - destruct (take_task P ts) as [[t' rest']|]; [|done].
    intros [= -> <-]. destruct (IH rest' eq_refl) as [Ht Hmem].
    split; [done|]. intros x. rewrite !elem_of_cons, Hmem. tauto.
Qed.

Lemma call_footprint (symbol : string) (w : World) :
  isChecking (run_async symbol (checkPattern symbol) w)
  = <[symbol := true]> (isChecking w)
  ∧ tasks (run_async symbol (checkPattern symbol) w)
    = tasks w ++ [mkTask symbol (AwaitFetch (nextId w) (S (nextId w)))].
Proof. unfold run_async. by step_run. Qed.

Lemma after_fetch_footprint
  (symbol : string) (c h : nat) (res : Settled nat) (w : World) :
  if fetch_failed res
  then isChecking (run_async symbol
                     (checkPattern_after_fetch symbol c h res) w)
       = <[symbol := false]> (isChecking w)
       ∧ tasks (run_async symbol
                  (checkPattern_after_fetch symbol c h res) w)
         = tasks w
  else isChecking (run_async symbol
                     (checkPattern_after_fetch symbol c h res) w)
       = isChecking w
       ∧ tasks (run_async symbol
                  (checkPattern_after_fetch symbol c h res) w)
         = tasks w ++ [mkTask symbol (AwaitJson c)].
Proof.
  unfold run_async. destruct res as [status|err]; cbn.
  - destruct (ok status) eqn:Hok; step_run; by rewrite Hok.
  - by step_run.
Qed.

Lemma after_json_footprint
  (symbol : string) (body : Settled json) (w : World) :
  isChecking (run_async symbol (checkPattern_after_json symbol body) w)
  = <[symbol := false]> (isChecking w)
  ∧ tasks (run_async symbol (checkPattern_after_json symbol body) w)
    = tasks w.
Proof.
  unfold run_async. destruct body as [j|err]; step_run; [|done].
  by destruct (destructure "pattern_detected" j).
Qed.

(** Taking the task [t] out of the queue and either ending it, which clears
    its marker, or queueing it again keeps [no_leak]. *)
Lemma settle_no_leak (w w' : World) (t : Task) (rest : list Task) :
  no_leak w →
  (∀ x, x ∈ tasks w ↔ x = t ∨ x ∈ rest) →
  (isChecking w' = <[task_symbol t := false]> (isChecking w)
   ∧ tasks w' = rest)
  ∨ (isChecking w' = isChecking w
     ∧ ∃ p, tasks w' = rest ++ [mkTask (task_symbol t) p]) →
  no_leak w'.
Proof.
  intros Hinv Hmem [[Hchk Htasks]|[Hchk [p Htasks]]] symbol Hsym.
  - rewrite Hchk in Hsym.
    destruct (decide (task_symbol t = symbol)) as [<-|Hne].
    + by rewrite lookup_insert_eq in Hsym.
    + rewrite lookup_insert_ne in Hsym by done.
      destruct (Hinv symbol Hsym) as (t0 & Hin & Ht0).
      exists t0. split; [|done]. rewrite Htasks.
      apply Hmem in Hin as [->|Hin]; done.
  - rewrite Hchk in Hsym.
    destruct (Hinv symbol Hsym) as (t0 & Hin & Ht0).
    rewrite Htasks. apply Hmem in Hin as [->|Hin].
    + eexists. split; [apply elem_of_app; right; apply list_elem_of_here|].
      done.
    + exists t0. split; [|done]. apply elem_of_app. by left.
Qed.

Lemma call_no_leak (symbol : string) (w : World) :
  no_leak w → no_leak (run_async symbol (checkPattern symbol) w).
Proof.
  intros Hinv symbol' Hsym.
  destruct (call_footprint symbol w) as [Hchk Htasks].
  rewrite Hchk in Hsym. rewrite Htasks.
  destruct (decide (symbol = symbol')) as [<-|Hne].
  - eexists. split; [apply elem_of_app; right; apply list_elem_of_here|].
    done.
  - rewrite lookup_insert_ne in Hsym by done.
    destruct (Hinv symbol' Hsym) as (t0 & Hin & Ht0).
    exists t0. split; [|done]. apply elem_of_app. by left.
Qed.

Lemma resume_fetch_no_leak
  (w : World) (t : Task) (rest : list Task) (res : Settled nat) :
  no_leak w →
  (∀ x, x ∈ tasks w ↔ x = t ∨ x ∈ rest) →
  (∃ c h, awaiting t = AwaitFetch c h) →
  no_leak (resume_fetch t res (with_tasks rest w)).
Proof.
  intros Hinv Hmem (c & h & Hwait).
  apply (settle_no_leak w _ t rest Hinv Hmem).
  unfold resume_fetch. rewrite Hwait.
  pose proof (after_fetch_footprint (task_symbol t) c h res
                (with_tasks rest w)) as Hfoot.
  destruct (fetch_failed res); destruct Hfoot as [Hchk Htasks].
  - left. by rewrite Hchk, Htasks.
  - right. rewrite Hchk, Htasks. split; [done|]. by eexists.
Qed.

Lemma resume_json_no_leak
  (w : World) (t : Task) (rest : list Task) (body : Settled json) :
  no_leak w →
  (∀ x, x ∈ tasks w ↔ x = t ∨ x ∈ rest) →
  no_leak (resume_json t body (with_tasks rest w)).
Proof.
  intros Hinv Hmem.
  apply (settle_no_leak w _ t rest Hinv Hmem). left.
  unfold resume_json.
  destruct (after_json_footprint (task_symbol t) body (with_tasks rest w))
    as [Hchk Htasks].
  by rewrite Hchk, Htasks.
Qed.

Lemma abort_no_leak (c : nat) (w : World) :
  no_leak w → no_leak (abort c w).
Proof.
  intros Hinv. unfold abort.
  destruct (take_task _ (tasks w)) as [[t rest]|] eqn:Htake; [|done].
  apply take_task_spec in Htake as [_ Hmem].
  destruct (awaiting t) as [c' h'|c'] eqn:Hwait.
  - apply resume_fetch_no_leak; [done..|]. by eexists _, _.
  - by apply resume_json_no_leak.
Qed.

Lemma exec_no_leak (e : Event) (w w' : World) :
  no_leak w → exec e w = Some w' → no_leak w'.
Proof.
  intros Hinv.
  destruct e as [symbol|args|symbol|c res|c body|h|dt]; cbn [exec];
    intros Hexec.
  - injection Hexec as <-. by apply call_no_leak.
  - injection Hexec as <-. intros symbol. step_run. apply Hinv.
  - destruct (find_card symbol w) as [card|]; [|done].
    destruct (dom_disabled (button card)); [done|].
    injection Hexec as <-. by apply call_no_leak.
  - destruct (take_task _ (tasks w)) as [[t rest]|] eqn:Htake; [|done].
    injection Hexec as <-.
    apply take_task_spec in Htake as [Hwait Hmem].
    apply resume_fetch_no_leak; [done..|].
    unfold awaits_fetch in Hwait.
    destruct (awaiting t) as [c' h'|c']; [by eexists _, _|done].
  - destruct (take_task _ (tasks w)) as [[t rest]|] eqn:Htake; [|done].
    injection Hexec as <-.
    apply take_task_spec in Htake as [_ Hmem].
    by apply resume_json_no_leak.
  - destruct (find_timer h w) as [tm|]; [|done].
    destruct (due tm <=? now w)%N; [|done].
    injection Hexec as <-.
    destruct (callback tm) as [id|c]; cbn [run_callback].
    + intros symbol. step_run. apply Hinv.
    + apply abort_no_leak. intros symbol. apply Hinv.
  - injection Hexec as <-. intros symbol. cbn. apply Hinv.
Qed.

(** X1. However the calls, the responses, the timers and the clicks
    interleave, a marker that is [true] belongs to a call that is still
    waiting: once the calls for a symbol have all ended, its marker is not
    [true]. *)
Lemma no_leaked_marker (rng : nat → string) (es : list Event) (w : World) :
  run es (initial rng) = Some w → no_leak w.
Proof.
  assert (Hrun : ∀ es w0 w1,
            no_leak w0 → run es w0 = Some w1 → no_leak w1).
  { clear. induction es as [|e es IH]; intros w0 w1 Hinv; cbn.
    - by intros [= <-].
    - destruct (exec e w0) as [w'|] eqn:Hexec; [|done].
      apply IH. by apply (exec_no_leak e w0). }
  apply Hrun. intros symbol Hsym. cbn in Hsym.
  by rewrite lookup_empty in Hsym.
Qed.

(** A check of one symbol leaves the result and the marker of every other
    symbol as they were. *)
Lemma other_symbols_untouched
  (symbol symbol' : string) (m : Sync unit) (w : World) :
  symbol ≠ symbol' →
  m = checkPattern symbol
  ∨ (∃ c h res, m = checkPattern_after_fetch symbol c h res)
  ∨ (∃ body, m = checkPattern_after_json symbol body) →
  obj_get symbol' (stockResults (snd (m w)))
  = obj_get symbol' (stockResults w)
  ∧ isChecking (snd (m w)) !! symbol' = isChecking w !! symbol'.
Proof.
  intros Hne [->|[(c & h & res & ->)|(body & ->)]].
  - step_run. by rewrite lookup_insert_ne.
  - destruct res as [status|err]; step_run.
    + destruct (ok status); cbn; [done|].
      by rewrite obj_get_set_ne, lookup_insert_ne.
    + by rewrite obj_get_set_ne, lookup_insert_ne.
  - destruct body as [j|err]; step_run.
    + destruct (destructure "pattern_detected" j); cbn;
        by rewrite obj_get_set_ne, lookup_insert_ne.
    + by rewrite obj_get_set_ne, lookup_insert_ne.
Qed.

(** When the 3000 ms timer of a waiting [fetch] fires, the call is resumed
    as in the failure class [ClientTimeout]; before the timer is due it
    cannot fire. *)
Lemma timer_aborts_fetch
  (w : World) (symbol : string) (c h : nat) (d : N) (rest : list Task) :
  find_timer h w = Some (mkTimer h d (AbortFetch c)) →
  take_task (fun t => Nat.eqb (task_request t) c) (tasks w)
  = Some (mkTask symbol (AwaitFetch c h), rest) →
  exec (TimerFires h) w
  = if (d <=? now w)%N
    then Some (run_async symbol (fails symbol c h ClientTimeout)
                 (with_tasks rest (snd (clearTimeout h w))))
    else None.
Proof.
  intros Htimer Htask. cbn [exec]. rewrite Htimer. cbn.
  destruct (d <=? now w)%N; [|done].
  unfold abort. cbn. by rewrite Htask.
Qed.

(** A 2xx body that parses but carries no [pattern_detected] is not a
    failure for the code: the success branch stores [undefined], which the
    card shows as "No pattern detected", and toasts "No Pattern Detected". *)
Lemma body_without_decision :
  ∃ w' t,
    checkPattern_after_json "AAPL" (Resolved (JObj [])) (initial sample_rng)
    = (Ok tt, w')
    ∧ obj_get "AAPL" (stockResults w') = VUndefined
    ∧ shown "AAPL" w' = "No pattern detected"
    ∧ toasts w' = [t]
    ∧ obj_get "title" t = VStr "No Pattern Detected"
    ∧ UseToast.severity t = UseToast.alert.
Proof.
  exists (snd (checkPattern_after_json "AAPL" (Resolved (JObj []))
                 (initial sample_rng))),
         (UseToast.newToast "0k3x9q2" (VStr "No Pattern Detected")
            (VStr "Finished analyzing AAPL.") (VStr "destructive")).
  by repeat split.
Qed.

(** X2. The body [null] cannot be destructured: the [TypeError] is caught
    and the check ends as a failure, with the result [null] and the error
    toast. *)
Lemma body_null (symbol : string) (w : World) :
  ∃ w',
    checkPattern_after_json symbol (Resolved JNull) w = (Ok tt, w')
    ∧ stockResults w' = obj_set symbol VNull (stockResults w)
    ∧ toasts w' = toasts w ++ [error_toast w].
Proof. eexists. by step_run. Qed.

(** *** The scenarios of section 8 of the specification *)

(** What one looks at after a run: the result and the card text of a symbol,
    its marker, and the toasts. *)
Example scenario_detected :
  (fun w => (obj_get "AAPL" (stockResults w), shown "AAPL" w,
             isChecking w !! "AAPL", UseToast.severity <$> toasts w,
             obj_get "title" <$> toasts w))
  <$> run [Click "AAPL";
           FetchSettles 0 (Resolved 200);
           JsonSettles 0 (Resolved (JObj [("pattern_detected", JBool true)]))]
          (initial sample_rng)
  = Some (VTrue, "Pattern detected", Some false, [UseToast.normal],
          [VStr "Cup & Handle Pattern Detected"]).
Proof. reflexivity. Qed.

Example scenario_timeout :
  (fun w => (obj_get "MSFT" (stockResults w), shown "MSFT" w,
             isChecking w !! "MSFT", UseToast.severity <$> toasts w,
             obj_get "title" <$> toasts w))
  <$> run [Click "MSFT"; Advance 3000; TimerFires 1] (initial sample_rng)
  = Some (VNull, "Not checked", Some false, [UseToast.alert], [VStr "Error"])
  ∧ run [Click "MSFT"; Advance 2999; TimerFires 1] (initial sample_rng)
    = None.
Proof. split; reflexivity. Qed.

(** Two overlapping checks of GOOGL: the second call gets its answer first,
    the first call gets its answer last, and the result on the page is the
    one of the first call. In between, the marker is already [false] while
    the first call still waits. *)
Example scenario_overlap :
  (fun w => (obj_get "GOOGL" (stockResults w), isChecking w !! "GOOGL",
             task_symbol <$> tasks w))
  <$> run [Call_checkPattern "GOOGL"; Call_checkPattern "GOOGL";
           FetchSettles 2 (Resolved 200);
           JsonSettles 2 (Resolved (JObj [("pattern_detected", JBool false)]))]
          (initial sample_rng)
  = Some (VFalse, Some false, ["GOOGL"])
  ∧ (fun w => (obj_get "GOOGL" (stockResults w), isChecking w !! "GOOGL",
               task_symbol <$> tasks w))
    <$> run [Call_checkPattern "GOOGL"; Call_checkPattern "GOOGL";
             FetchSettles 2 (Resolved 200);
             JsonSettles 2
               (Resolved (JObj [("pattern_detected", JBool false)]));
             FetchSettles 0 (Resolved 200);
             JsonSettles 0
               (Resolved (JObj [("pattern_detected", JBool true)]))]
            (initial sample_rng)
    = Some (VTrue, Some false, []).
Proof. split; reflexivity. Qed.

(** The poll of section 8: a 200 response leads to healthy and hidden. *)
Example scenario_health_ok :
  Layout.health
  <$> Layout.exec None (Layout.Settles (Layout.Responds 200))
        (Layout.mkState false true 1 [])
  = Some Layout.Healthy_Hidden.
Proof. reflexivity. Qed.

(** *** Timer handles *)

Lemma filter_true {A} (l : list A) : List.filter (fun _ => true) l = l.
Proof. by apply filter_all. Qed.

Lemma grows_refl (w w' : World) :
  timers w' = timers w → nextId w' = nextId w → grows w w'.
Proof.
  intros Ht Hn. exists (fun _ => true), [].
  rewrite filter_true, app_nil_r, Hn. repeat split; [done|lia|constructor..].
Qed.

Lemma grows_one (w w' : World) (f : Timer → bool) (d : N) (cb : Callback) :
  timers w' = List.filter f (timers w) ++ [mkTimer (nextId w) d cb] →
  nextId w' = S (nextId w) →
  grows w w'.
Proof.
  intros Ht Hn. exists f, [mkTimer (nextId w) d cb].
  rewrite Hn. repeat split; [done|lia| |apply NoDup_singleton].
  apply Forall_singleton. cbn. lia.
Qed.

Lemma timers_ok_grows (w w' : World) :
  timers_ok w → grows w w' → timers_ok w'.
Proof.
  intros [Hbound Hnodup] (f & added & Ht & Hn & Hadded & Hnew).
  assert (Hkept : List.filter f (timers w) `sublist_of` timers w)
    by apply sublist_filter_bool.
  split; rewrite Ht.
  - apply Forall_app. split.
    + apply Forall_forall. intros tm Htm.
      rewrite Forall_forall in Hbound.
      specialize (Hbound tm (elem_of_sublist _ _ _ Htm Hkept)). lia.
    + eapply Forall_impl; [exact Hadded|]. cbn. intros tm ?. lia.
  - rewrite fmap_app. apply NoDup_app. split; [|split; [|done]].
    + eapply sublist_NoDup; [exact Hnodup|]. by apply fmap_sublist.
    + intros x Hx Hx'.
      apply list_elem_of_fmap in Hx as (tm & -> & Htm).
      apply list_elem_of_fmap in Hx' as (tm' & Heq & Htm').
      rewrite Forall_forall in Hbound, Hadded.
      specialize (Hbound tm (elem_of_sublist _ _ _ Htm Hkept)).
      specialize (Hadded tm' Htm'). lia.
Qed.

Lemma grows_toast (args : object) (w : World) :
  grows w (snd (UseToast.toast args w)).
Proof.
  eapply (grows_one _ _ (fun _ => true)); step_run; [|done].
  by rewrite filter_true.
Qed.

Lemma grows_checkPattern (symbol : string) (w : World) :
  grows w (run_async symbol (checkPattern symbol) w).
Proof.
  exists (fun _ => true), [mkTimer (S (nextId w)) (now w + 3000)
                             (AbortFetch (nextId w))].
  unfold run_async. step_run. rewrite filter_true.
  repeat split; [lia| |apply NoDup_singleton].
  apply Forall_singleton. cbn. lia.
Qed.

Lemma grows_after_fetch
  (symbol : string) (c h : nat) (res : Settled nat) (w : World) :
  grows w (run_async symbol (checkPattern_after_fetch symbol c h res) w).
Proof.
  unfold run_async. destruct res as [status|err]; step_run.
  - destruct (ok status); cbn.
    + exists (fun t => negb (Nat.eqb (handle t) h)), [].
      rewrite app_nil_r. split; [done|]. split; [cbn; lia|].
      split; constructor.
    + by eapply grows_one.
  - eapply (grows_one _ _ (fun _ => true)); cbn; [|done].
    by rewrite filter_true.
Qed.

Lemma grows_after_json (symbol : string) (body : Settled json) (w : World) :
  grows w (run_async symbol (checkPattern_after_json symbol body) w).
Proof.
  unfold run_async. destruct body as [j|err]; step_run.
  - destruct (destructure "pattern_detected" j); cbn;
      (eapply (grows_one _ _ (fun _ => true)); cbn; [|done]);
      by rewrite filter_true.
  - eapply (grows_one _ _ (fun _ => true)); cbn; [|done].
    by rewrite filter_true.
Qed.

Lemma grows_abort (c : nat) (w : World) : grows w (abort c w).
Proof.
  unfold abort.
  destruct (take_task _ (tasks w)) as [[t rest]|]; [|by apply grows_refl].
  unfold resume_fetch, resume_json.
  destruct (awaiting t) as [c' h'|c'].
  - apply (grows_after_fetch _ _ _ _ (with_tasks rest w)).
  - apply (grows_after_json _ _ (with_tasks rest w)).
Qed.

Lemma exec_timers_ok (e : Event) (w w' : World) :
  timers_ok w → exec e w = Some w' → timers_ok w'.
Proof.
  intros Hok.
  destruct e as [symbol|args|symbol|c res|c body|h|dt]; cbn [exec];
    intros Hexec.
  - injection Hexec as <-.
    eapply timers_ok_grows; [done|apply grows_checkPattern].
  - injection Hexec as <-.
    eapply timers_ok_grows; [done|apply grows_toast].
  - destruct (find_card symbol w) as [card|]; [|done].
    destruct (dom_disabled (button card)); [done|].
    injection Hexec as <-.
    eapply timers_ok_grows; [done|apply grows_checkPattern].
  - destruct (take_task _ (tasks w)) as [[t rest]|]; [|done].
    injection Hexec as <-. unfold resume_fetch.
    destruct (awaiting t) as [c' h'|c']; [|done].
    eapply timers_ok_grows;
      [|apply (grows_after_fetch _ _ _ _ (with_tasks rest w))].
    done.
  - destruct (take_task _ (tasks w)) as [[t rest]|]; [|done].
    injection Hexec as <-.
    eapply timers_ok_grows;
      [|apply (grows_after_json _ _ (with_tasks rest w))].
    done.
  - destruct (find_timer h w) as [tm|]; [|done].
    destruct (due tm <=? now w)%N; [|done].
    injection Hexec as <-.
    assert (timers_ok (snd (clearTimeout h w))) as Hok'.
    { eapply timers_ok_grows; [exact Hok|].
      exists (fun t => negb (Nat.eqb (handle t) h)), [].
      step_run. rewrite app_nil_r. split; [done|]. split; [lia|].
      split; constructor. }
    destruct (callback tm) as [id|c]; cbn [run_callback].
    + eapply timers_ok_grows; [exact Hok'|]. by apply grows_refl.
    + eapply timers_ok_grows; [exact Hok'|apply grows_abort].
  - by injection Hexec as <-.
Qed.

(** On every page reached from the first rendering the pending timers have
    distinct handles: firing or clearing one timer by its handle takes out
    that timer alone. *)
Lemma timer_handles_distinct
  (rng : nat → string) (es : list Event) (w : World) :
  run es (initial rng) = Some w → timers_ok w.
Proof.
  assert (Hrun : ∀ es w0 w1,
            timers_ok w0 → run es w0 = Some w1 → timers_ok w1).
  { clear. induction es as [|e es IH]; intros w0 w1 Hok; cbn.
    - by intros [= <-].
    - destruct (exec e w0) as [w'|] eqn:Hexec; [|done].
      apply IH. by apply (exec_timers_ok e w0). }
  apply Hrun. split; constructor.
Qed.

(** ** Further properties of the check *)

(** Evaluates a stretch of code on a page whose fields are laid open. *)
Ltac page_eval :=
  cbv [run_async resume fails
       checkPattern checkPattern_after_fetch checkPattern_after_json
       in_try Dashboard.catch_block finally_block
       UseToast.toast UseToast.remove_toast
       setIsChecking setStockResults setToasts record console_error fetch
       Math_random_toString36 setTimeout clearTimeout new_AbortController
       fresh try_finally try_catch mbind mret Step_bind Step_ret bind
       ret throw await modify gets
       with_stockResults with_isChecking with_toasts with_timers with_tasks
       with_now with_nextId with_draws with_calls
       stockResults isChecking toasts timers tasks now nextId rng draws calls
       fst snd negb].

Ltac open_page w :=
  destruct w as [w_sr w_ic w_to w_ti w_ta w_now w_id w_rng w_dr w_ca].

Lemma resume_result (symbol : string) (r : Resumption) (w : World) :
  ends r = true →
  fst (resume symbol r w) = Ok tt
  ∧ stockResults (snd (resume symbol r w))
    = obj_set symbol (result_of r) (stockResults w)
  ∧ isChecking (snd (resume symbol r w))
    = <[symbol := false]> (isChecking w).
Proof.
  destruct w as [w_sr w_ic w_to w_ti w_ta w_now w_id w_rng w_dr w_ca].
  destruct r as [c h [status|err]|[j|err]]; cbn; intros Hends.
  - apply negb_true_iff in Hends. page_eval. by rewrite Hends.
  - by page_eval.
  - page_eval. by destruct (destructure "pattern_detected" j).
  - by page_eval.
Qed.

(** What each stretch does to the timers, the toasts, the queue, the
    counter of handles and the clock. *)
Lemma call_shape (symbol : string) (w : World) :
  timers (run_async symbol (checkPattern symbol) w)
  = timers w ++ [mkTimer (S (nextId w)) (now w + 3000)
                         (AbortFetch (nextId w))]
  ∧ tasks (run_async symbol (checkPattern symbol) w)
    = tasks w ++ [mkTask symbol (AwaitFetch (nextId w) (S (nextId w)))]
  ∧ toasts (run_async symbol (checkPattern symbol) w) = toasts w
  ∧ stockResults (run_async symbol (checkPattern symbol) w) = stockResults w
  ∧ nextId (run_async symbol (checkPattern symbol) w) = S (S (nextId w))
  ∧ now (run_async symbol (checkPattern symbol) w) = now w.
Proof.
  destruct w as [w_sr w_ic w_to w_ti w_ta w_now w_id w_rng w_dr w_ca].
  unfold run_async. by page_eval.
Qed.

Lemma fetch_ok_shape (symbol : string) (c h status : nat) (w : World) :
  ok status = true →
  timers (run_async symbol
            (checkPattern_after_fetch symbol c h (Resolved status)) w)
  = List.filter (fun t => negb (Nat.eqb (handle t) h)) (timers w)
  ∧ tasks (run_async symbol
             (checkPattern_after_fetch symbol c h (Resolved status)) w)
    = tasks w ++ [mkTask symbol (AwaitJson c)]
  ∧ toasts (run_async symbol
              (checkPattern_after_fetch symbol c h (Resolved status)) w)
    = toasts w
  ∧ isChecking (run_async symbol
                  (checkPattern_after_fetch symbol c h (Resolved status)) w)
    = isChecking w
  ∧ nextId (run_async symbol
              (checkPattern_after_fetch symbol c h (Resolved status)) w)
    = nextId w
  ∧ now (run_async symbol
           (checkPattern_after_fetch symbol c h (Resolved status)) w)
    = now w.
Proof.
  intros Hok.
  destruct w as [w_sr w_ic w_to w_ti w_ta w_now w_id w_rng w_dr w_ca].
  unfold run_async. page_eval. by rewrite Hok.
Qed.

Lemma clear_shape (h : nat) (w : World) :
  timers (snd (clearTimeout h w))
  = List.filter (fun t => negb (Nat.eqb (handle t) h)) (timers w)
  ∧ tasks (snd (clearTimeout h w)) = tasks w
  ∧ toasts (snd (clearTimeout h w)) = toasts w
  ∧ nextId (snd (clearTimeout h w)) = nextId w
  ∧ now (snd (clearTimeout h w)) = now w.
Proof. by destruct w. Qed.

Lemma expire_shape (id : string) (h : nat) (w : World) :
  timers (snd (UseToast.remove_toast id (snd (clearTimeout h w))))
  = List.filter (fun t => negb (Nat.eqb (handle t) h)) (timers w)
  ∧ toasts (snd (UseToast.remove_toast id (snd (clearTimeout h w))))
    = List.filter (UseToast.other_id id) (toasts w)
  ∧ tasks (snd (UseToast.remove_toast id (snd (clearTimeout h w))))
    = tasks w
  ∧ nextId (snd (UseToast.remove_toast id (snd (clearTimeout h w))))
    = nextId w
  ∧ now (snd (UseToast.remove_toast id (snd (clearTimeout h w)))) = now w.
Proof. by destruct w. Qed.

(** X3. The result that a check leaves for its symbol depends only on how
    that check ended, not on what the page held before: of two checks of
    one symbol that overlap, the one that ends last decides the result,
    whatever the other one did. The marker is [false] either way. *)
Theorem last_ending_decides
  (symbol : string) (r1 r2 : Resumption) (w : World) :
  ends r2 = true →
  obj_get symbol
    (stockResults (snd (resume symbol r2 (snd (resume symbol r1 w)))))
  = result_of r2
  ∧ obj_get symbol (stockResults (snd (resume symbol r2 w))) = result_of r2
  ∧ isChecking (snd (resume symbol r2 (snd (resume symbol r1 w)))) !! symbol
    = Some false.
Proof.
  intros Hends.
  destruct (resume_result symbol r2 (snd (resume symbol r1 w)) Hends)
    as (_ & Hres & Hchk).
  destruct (resume_result symbol r2 w Hends) as (_ & Hres' & _).
  rewrite Hres, Hres', Hchk, !obj_get_set_eq, lookup_insert_eq. done.
Qed.

Lemma last_ending_decides_witness :
  obj_get "GOOGL"
    (stockResults
       (snd (resume "GOOGL"
               (JsonArrives
                  (Resolved (JObj [("pattern_detected", JBool true)])))
               (snd (resume "GOOGL"
                       (JsonArrives
                          (Resolved
                             (JObj [("pattern_detected", JBool false)])))
                       (initial sample_rng))))))
  = VTrue.
Proof.
  apply (last_ending_decides "GOOGL"
           (JsonArrives (Resolved (JObj [("pattern_detected", JBool false)])))
           (JsonArrives (Resolved (JObj [("pattern_detected", JBool true)])))
           (initial sample_rng)).
  reflexivity.
Defined.

(** X4. The success branch does not look at the type of
    [pattern_detected]: whatever a 2xx body other than [null] carries
    there, a string, a number, [null], or nothing at all, is stored as the
    result, and the one toast of the call is worded by its truthiness. *)
Theorem success_branch_takes_any_value
  (symbol : string) (j : json) (v : value) (w : World) :
  destructure "pattern_detected" j = Some v →
  ∃ w' t,
    checkPattern_after_json symbol (Resolved j) w = (Ok tt, w')
    ∧ obj_get symbol (stockResults w') = v
    ∧ shown symbol w' = text (getStatusDisplay v VFalse)
    ∧ toasted w w' (decision symbol v) t
    ∧ obj_get "title" t
      = VStr (if truthy v then "Cup & Handle Pattern Detected"
              else "No Pattern Detected")
    ∧ UseToast.severity t
      = (if truthy v then UseToast.normal else UseToast.alert).
Proof.
  destruct w as [w_sr w_ic w_to w_ti w_ta w_now w_id w_rng w_dr w_ca].
  intros Hv. eexists _, _. page_eval. rewrite Hv. cbn.
  split; [reflexivity|]. cbn.
  split; [apply obj_get_set_eq|]. split.
  - unfold shown, checking. cbn. by rewrite obj_get_set_eq, lookup_insert_eq.
  - split.
    + split; [reflexivity|]. eexists. unfold made; cbn.
      split; [by rewrite <- !app_assoc|done].
    + by destruct (truthy v).
Qed.

Lemma success_branch_takes_any_value_witness :
  ∃ w' t,
    checkPattern_after_json "AAPL"
      (Resolved (JObj [("pattern_detected", JStr "yes")]))
      (initial sample_rng)
    = (Ok tt, w')
    ∧ obj_get "AAPL" (stockResults w') = VStr "yes"
    ∧ shown "AAPL" w' = "No pattern detected"
    ∧ toasted (initial sample_rng) w' (decision "AAPL" (VStr "yes")) t
    ∧ obj_get "title" t = VStr "Cup & Handle Pattern Detected"
    ∧ UseToast.severity t = UseToast.normal.
Proof.
  apply (success_branch_takes_any_value "AAPL"
           (JObj [("pattern_detected", JStr "yes")]) (VStr "yes")
           (initial sample_rng)).
  reflexivity.
Defined.

(** X5. The toast and the card read the result differently: the toast
    tests truthiness, the card tests [=== true]. For a value that is truthy
    and is not [true], the toast announces a detected pattern while the
    card shows "No pattern detected", or "Check error" for the string
    "error". *)
Theorem toast_and_card_disagree
  (symbol : string) (j : json) (v : value) (w : World) :
  destructure "pattern_detected" j = Some v →
  truthy v = true →
  is_true v = false →
  ∃ w' t,
    checkPattern_after_json symbol (Resolved j) w = (Ok tt, w')
    ∧ toasts w' = toasts w ++ [t]
    ∧ obj_get "title" t = VStr "Cup & Handle Pattern Detected"
    ∧ UseToast.severity t = UseToast.normal
    ∧ shown symbol w'
      = (if is_str "error" v then "Check error" else "No pattern detected").
Proof.
  destruct w as [w_sr w_ic w_to w_ti w_ta w_now w_id w_rng w_dr w_ca].
  intros Hv Htruthy Htrue.
  eexists _, _. page_eval. rewrite Hv. cbn. rewrite Htruthy.
  split; [reflexivity|]. cbn. repeat split.
  unfold shown, checking. cbn. rewrite obj_get_set_eq, lookup_insert_eq.
  unfold getStatusDisplay.
  destruct v as [|[|[]|n|s|l|ms]]; cbn in *; try discriminate; try done.
  by destruct (String.eqb s "error").
Qed.

Lemma toast_and_card_disagree_witness :
  ∃ w' t,
    checkPattern_after_json "AAPL"
      (Resolved (JObj [("pattern_detected", JNum 1)])) (initial sample_rng)
    = (Ok tt, w')
    ∧ toasts w' = toasts (initial sample_rng) ++ [t]
    ∧ obj_get "title" t = VStr "Cup & Handle Pattern Detected"
    ∧ UseToast.severity t = UseToast.normal
    ∧ shown "AAPL" w' = "No pattern detected".
Proof.
  apply (toast_and_card_disagree "AAPL"
           (JObj [("pattern_detected", JNum 1)]) (VJson (JNum 1))
           (initial sample_rng)); reflexivity.
Defined.

(** X6. The card's "Check error" display is never the outcome of a failed
    check: after a call has ended, the card of its symbol shows "Check
    error" only when a 2xx body carried the string "error" as
    [pattern_detected]. *)
Theorem check_error_needs_error_string
  (symbol : string) (r : Resumption) (w : World) :
  ends r = true →
  shown symbol (snd (resume symbol r w)) = "Check error" →
  ∃ j,
    r = JsonArrives (Resolved j)
    ∧ destructure "pattern_detected" j = Some (VStr "error").
Proof.
  intros Hends Hshown.
  destruct (resume_result symbol r w Hends) as (_ & Hres & Hchk).
  unfold shown, checking in Hshown.
  rewrite Hres, Hchk, obj_get_set_eq, lookup_insert_eq in Hshown.
  assert (result_of r = VStr "error") as Hresult.
  { unfold getStatusDisplay in Hshown. cbn in Hshown.
    destruct (result_of r) as [|[|[]| |s| |]]; cbn in Hshown;
      try discriminate.
    destruct (String.eqb s "error") eqn:E; [|discriminate].
    by apply String.eqb_eq in E as ->. }
  destruct r as [c h res|[j|err]]; cbn in Hresult; try discriminate.
  exists j. split; [done|].
  destruct (destructure "pattern_detected" j); [|discriminate].
  by rewrite Hresult.
Qed.

Lemma check_error_needs_error_string_witness :
  ∃ j,
    JsonArrives (Resolved (JObj [("pattern_detected", JStr "error")]))
    = JsonArrives (Resolved j)
    ∧ destructure "pattern_detected" j = Some (VStr "error").
Proof.
  apply (check_error_needs_error_string "TSLA"
           (JsonArrives (Resolved (JObj [("pattern_detected", JStr "error")])))
           (initial sample_rng)); reflexivity.
Defined.

(** X7. A call of [checkPattern] sends exactly one request, to
    "http://localhost:5000/api/pattern?symbol=" followed by the symbol as it
    is, and no resumption sends another: a failed check is not retried. *)
Theorem checkPattern_fetches_once (symbol : string) (w : World) :
  (∃ cs c,
      made w (snd (checkPattern symbol w)) cs
      ∧ List.filter is_fetch cs
        = [CFetch ("http://localhost:5000/api/pattern?symbol=" +:+ symbol) c])
  ∧ ∀ r, ∃ cs,
      made w (snd (resume symbol r w)) cs ∧ List.filter is_fetch cs = [].
Proof.
  destruct w as [w_sr w_ic w_to w_ti w_ta w_now w_id w_rng w_dr w_ca].
  split; [apply checkPattern_url|].
  intros [c h [status|err]|[j|err]]; cbn.
  - page_eval. destruct (ok status); cbn; eexists; unfold made; cbn.
    + split; [by rewrite app_nil_r|done].
    + split; [by rewrite <- !app_assoc|done].
  - eexists. unfold made. page_eval. split; [by rewrite <- !app_assoc|done].
  - page_eval. destruct (destructure "pattern_detected" j); cbn;
      eexists; unfold made; cbn;
      (split; [by rewrite <- !app_assoc|done]).
  - eexists. unfold made. page_eval. split; [by rewrite <- !app_assoc|done].
Qed.

Lemma find_cleared (h : nat) (l : list Timer) :
  List.find (fun t => Nat.eqb (handle t) h)
            (List.filter (fun t => negb (Nat.eqb (handle t) h)) l)
  = None.
Proof.
  induction l as [|tm l IH]; cbn; [done|].
  destruct (Nat.eqb (handle tm) h) eqn:E; cbn; [done|]. by rewrite E.
Qed.

(** X8. The 3000 ms limit covers the wait for the response, not the
    reading of its body. When a 2xx response has arrived the abort timer
    is cleared, so that however much time passes it no longer fires, and
    the call waits for [res.json()] with its marker still set. *)
Theorem timeout_ends_with_the_response
  (symbol : string) (c h status : nat) (w : World) :
  ok status = true →
  isChecking w !! symbol = Some true →
  let w' := run_async symbol
              (checkPattern_after_fetch symbol c h (Resolved status)) w in
  find_timer h w' = None
  ∧ (∀ dt, run [Advance dt; TimerFires h] w' = None)
  ∧ tasks w' = tasks w ++ [mkTask symbol (AwaitJson c)]
  ∧ isChecking w' !! symbol = Some true.
Proof.
  intros Hok Hmarker w'.
  destruct (fetch_ok_shape symbol c h status w Hok)
    as (Ht & Hta & _ & Hchk & _ & _).
  assert (find_timer h w' = None) as Hfind.
  { unfold find_timer. subst w'. rewrite Ht. apply find_cleared. }
  assert (∀ dt, find_timer h (with_now (now w' + dt) w') = None) as Hlater
    by (intros dt; exact Hfind).
  split; [done|]. split.
  - intros dt. cbn [run exec]. by rewrite Hlater.
  - subst w'. by rewrite Hta, Hchk.
Qed.

Lemma timeout_ends_with_the_response_witness :
  find_timer 1
    (run_async "MSFT"
       (checkPattern_after_fetch "MSFT" 0 1 (Resolved 200))
       (with_tasks [] sample_pending))
  = None
  ∧ (∀ dt,
       run [Advance dt; TimerFires 1]
         (run_async "MSFT"
            (checkPattern_after_fetch "MSFT" 0 1 (Resolved 200))
            (with_tasks [] sample_pending))
       = None)
  ∧ tasks (run_async "MSFT"
             (checkPattern_after_fetch "MSFT" 0 1 (Resolved 200))
             (with_tasks [] sample_pending))
    = [mkTask "MSFT" (AwaitJson 0)]
  ∧ isChecking (run_async "MSFT"
                  (checkPattern_after_fetch "MSFT" 0 1 (Resolved 200))
                  (with_tasks [] sample_pending)) !! "MSFT"
    = Some true.
Proof.
  apply (timeout_ends_with_the_response "MSFT" 0 1 200
           (with_tasks [] sample_pending));
    reflexivity.
Defined.


(** *** Keys and cards *)

Lemma Object_keys_obj_set (k : string) (v : value) (o : object) :
  Object_keys (obj_set k v o)
  = if decide (k ∈ Object_keys o) then Object_keys o
    else Object_keys o ++ [k].
Proof.
  unfold Object_keys. induction o as [|[k' v'] o IH]; cbn.
  - destruct (decide (k ∈ [])) as [Hin|_]; [|done].
    by apply not_elem_of_nil in Hin.
  - destruct (String.eqb k' k) eqn:E; cbn.
    + apply String.eqb_eq in E as ->.
      destruct (decide (k ∈ k :: (fst <$> o))) as [_|Hnot]; [done|].
      destruct Hnot. apply list_elem_of_here.
    + rewrite IH.
      assert (k' ≠ k) as Hne by (intros ->; by rewrite String.eqb_refl in E).
      destruct (decide (k ∈ fst <$> o)) as [Hin|Hnot];
        destruct (decide (k ∈ k' :: (fst <$> o))) as [Hin'|Hnot']; try done.
      * destruct Hnot'. by apply list_elem_of_further.
      * apply elem_of_cons in Hin' as [->|Hin']; done.
Qed.

Lemma elem_of_keys_obj_set (k k' : string) (v : value) (o : object) :
  k' ∈ Object_keys (obj_set k v o) ↔ k' = k ∨ k' ∈ Object_keys o.
Proof.
  rewrite Object_keys_obj_set.
  destruct (decide (k ∈ Object_keys o)) as [Hin|Hnot].
  - split; [by right|]. by intros [->|?].
  - rewrite elem_of_app, list_elem_of_singleton. tauto.
Qed.

(** The card that a click on [symbol] finds: the card of that key, when
    there is such a key. *)
Lemma find_card_spec (symbol : string) (w : World) :
  find_card symbol w
  = if decide (symbol ∈ Object_keys (stockResults w))
    then Some (StockCard symbol (obj_get symbol (stockResults w))
                         (checking symbol w) symbol)
    else None.
Proof.
  destruct (decide _) as [Hin|Hnot]; [by apply find_card_tracked|].
  unfold find_card, render.
  revert Hnot. generalize (Object_keys (stockResults w)) as ks.
  induction ks as [|k ks IH]; intros Hnot; cbn; [done|].
  destruct (String.eqb k symbol) eqn:E.
  - apply String.eqb_eq in E as ->. destruct Hnot. apply list_elem_of_here.
  - apply IH. intros Hin. destruct Hnot. by apply list_elem_of_further.
Qed.

Lemma run_async_ok (symbol : string) (m : Sync unit) (w : World) :
  fst (m w) = Ok tt → run_async symbol m w = snd (m w).
Proof. unfold run_async. destruct (m w) as [[[]|err|p] w']; by cbn. Qed.

(** What a resumption does to the results and to the queue. *)
Lemma resume_footprint (symbol : string) (r : Resumption) (w : World) :
  stockResults (run_async symbol (resume symbol r) w)
  = (if ends r then obj_set symbol (result_of r) (stockResults w)
     else stockResults w)
  ∧ isChecking (run_async symbol (resume symbol r) w)
    = (if ends r then <[symbol := false]> (isChecking w) else isChecking w)
  ∧ (∀ x, x ∈ tasks (run_async symbol (resume symbol r) w) →
          x ∈ tasks w ∨ task_symbol x = symbol).
Proof.
  destruct w as [w_sr w_ic w_to w_ti w_ta w_now w_id w_rng w_dr w_ca].
  destruct r as [c h [status|err]|[j|err]];
    cbn [ends fetch_failed resume result_of]; unfold run_async.
  - page_eval. destruct (ok status); cbn.
    + repeat split. intros x Hx.
      apply elem_of_app in Hx as [Hx|Hx]; [by left|right].
      by apply list_elem_of_singleton in Hx as ->.
    + repeat split. intros x Hx. by left.
  - page_eval. repeat split. intros x Hx. by left.
  - page_eval. destruct (destructure "pattern_detected" j); cbn;
      repeat split; intros x Hx; by left.
  - page_eval. repeat split. intros x Hx. by left.
Qed.

(** X9. A check of one symbol changes no other card: whatever stretch of
    [checkPattern(symbol)] runs, the card that the page draws for another
    symbol, its status line and its button, is the same before and after. *)
Theorem other_cards_unchanged
  (symbol symbol' : string) (r : Resumption) (w : World) :
  symbol ≠ symbol' →
  find_card symbol' (run_async symbol (checkPattern symbol) w)
  = find_card symbol' w
  ∧ find_card symbol' (run_async symbol (resume symbol r) w)
    = find_card symbol' w.
Proof.
  intros Hne. rewrite !find_card_spec. split.
  - destruct (call_footprint symbol w) as [Hchk _].
    destruct (call_shape symbol w) as (_ & _ & _ & -> & _).
    unfold checking. rewrite Hchk, lookup_insert_ne by done. done.
  - destruct (resume_footprint symbol r w) as (Hres & Hchk & _).
    unfold checking. rewrite Hres, Hchk.
    destruct (ends r); [|done].
    rewrite lookup_insert_ne, obj_get_set_ne by done.
    destruct (decide (symbol' ∈ Object_keys (stockResults w))) as [Hin|Hnot];
      destruct (decide _) as [Hin'|Hnot']; try done.
    + destruct Hnot'. apply elem_of_keys_obj_set. by right.
    + apply elem_of_keys_obj_set in Hin' as [->|Hin']; done.
Qed.

Lemma other_cards_unchanged_witness :
  find_card "AAPL" (run_async "MSFT" (checkPattern "MSFT") (initial sample_rng))
  = find_card "AAPL" (initial sample_rng)
  ∧ find_card "AAPL"
      (run_async "MSFT"
         (resume "MSFT"
            (JsonArrives (Resolved (JObj [("pattern_detected", JBool true)]))))
         (initial sample_rng))
    = find_card "AAPL" (initial sample_rng).
Proof.
  apply (other_cards_unchanged "MSFT" "AAPL"
           (JsonArrives (Resolved (JObj [("pattern_detected", JBool true)])))
           (initial sample_rng)).
  discriminate.
Defined.

(** *** The page keeps its timers and its toasts in step *)

Lemma handle_inj (l : list Timer) (t1 t2 : Timer) :
  NoDup (handle <$> l) → t1 ∈ l → t2 ∈ l → handle t1 = handle t2 → t1 = t2.
Proof.
  induction l as [|t l IH]; intros Hnodup H1 H2 Heq.
  - by apply not_elem_of_nil in H1.
  - cbn in Hnodup. apply NoDup_cons in Hnodup as [Hnot Hnodup].
    apply elem_of_cons in H1 as [->|H1];
      apply elem_of_cons in H2 as [->|H2]; try done.
    + destruct Hnot. rewrite Heq. by apply list_elem_of_fmap_2.
    + destruct Hnot. rewrite <- Heq. by apply list_elem_of_fmap_2.
    + by apply IH.
Qed.

Lemma elem_of_filter_bool {A} (f : A → bool) (l : list A) (x : A) :
  x ∈ List.filter f l ↔ x ∈ l ∧ f x = true.
Proof. rewrite !list_elem_of_In. apply List.filter_In. Qed.

Lemma find_timer_some (h : nat) (w : World) (tm : Timer) :
  find_timer h w = Some tm → tm ∈ timers w ∧ handle tm = h.
Proof.
  unfold find_timer. intros Hfind.
  apply List.find_some in Hfind as [Hin Heq].
  split; [by apply list_elem_of_In|by apply Nat.eqb_eq].
Qed.

(** Tasks are dropped, or a task that waits for [res.json()] is added. *)
Lemma page_ok_tasks (w w' : World) :
  page_ok w →
  (∀ x, x ∈ tasks w' →
        x ∈ tasks w
        ∨ ∃ s c, x = mkTask s (AwaitJson c) ∧ (c < nextId w)%nat) →
  timers w' = timers w → toasts w' = toasts w →
  nextId w' = nextId w → now w' = now w →
  page_ok w'.
Proof.
  intros (Htimers & Hfresh & Habort & Htoasts) Htasks Ht Hto Hn Hnow.
  split; [|split; [|split]].
  - destruct Htimers as [Hbound Hnodup]. by split; rewrite Ht, ?Hn.
  - intros x Hx. rewrite Hn.
    destruct (Htasks x Hx) as [Hin|(s & c & -> & Hc)]; [by apply Hfresh|done].
  - intros x c h Hx Hwait. rewrite Hn, Ht.
    destruct (Htasks x Hx) as [Hin|(s & c' & -> & Hc)]; [|done].
    by apply (Habort x).
  - intros t Hin. rewrite Hto in Hin. rewrite Ht, Hnow. by apply Htoasts.
Qed.

(** A timer that is no toast's timer is cleared. *)
Lemma page_ok_clear (w w' : World) (h : nat) :
  page_ok w →
  (∀ tm, tm ∈ timers w → handle tm = h → ∃ c, callback tm = AbortFetch c) →
  timers w'
  = List.filter (fun t => negb (Nat.eqb (handle t) h)) (timers w) →
  toasts w' = toasts w → tasks w' = tasks w →
  nextId w' = nextId w → now w' = now w →
  page_ok w'.
Proof.
  intros (Htimers & Hfresh & Habort & Htoasts) Hh Ht Hto Hta Hn Hnow.
  split; [|split; [|split]].
  - apply (timers_ok_grows w); [done|].
    exists (fun t => negb (Nat.eqb (handle t) h)), [].
    rewrite app_nil_r, Hn. split; [done|]. split; [lia|]. split; constructor.
  - intros x Hx. rewrite Hn. rewrite Hta in Hx. by apply Hfresh.
  - intros x c h' Hx Hwait. rewrite Hn. rewrite Hta in Hx.
    destruct (Habort x c h' Hx Hwait) as [Hlt Hcb]. split; [done|].
    intros tm Htm. rewrite Ht in Htm.
    apply elem_of_filter_bool in Htm as [Htm _]. by apply Hcb.
  - intros t Hin. rewrite Hto in Hin.
    destruct (Htoasts t Hin) as (id & tm & Hid & Htm & Hcb & Hdue).
    exists id, tm. rewrite Hnow. split; [done|]. split; [|done].
    rewrite Ht. apply elem_of_filter_bool. split; [done|].
    apply negb_true_iff, Nat.eqb_neq. intros Heq.
    destruct (Hh tm Htm Heq) as [c Hc]. congruence.
Qed.

(** A toast is added with its timer. *)
Lemma page_ok_toast (w w' : World) :
  page_ok w → adds_toast w w' → page_ok w'.
Proof.
  intros (Htimers & Hfresh & Habort & Htoasts)
         (id & t & Ht & Hto & Hid & Hta & Hn & Hnow).
  split; [|split; [|split]].
  - apply (timers_ok_grows w); [done|].
    eapply (grows_one _ _ (fun _ => true)); [|done].
    by rewrite filter_true.
  - intros x Hx. rewrite Hn. rewrite Hta in Hx.
    specialize (Hfresh x Hx). lia.
  - intros x c h Hx Hwait. rewrite Hn. rewrite Hta in Hx.
    destruct (Habort x c h Hx Hwait) as [Hlt Hcb]. split; [lia|].
    intros tm Htm Hh. rewrite Ht in Htm.
    apply elem_of_app in Htm as [Htm|Htm]; [by apply Hcb|].
    apply list_elem_of_singleton in Htm as ->. cbn in Hh. lia.
  - intros t' Hin. rewrite Hto in Hin. rewrite Ht, Hnow.
    apply elem_of_app in Hin as [Hin|Hin].
    + destruct (Htoasts t' Hin) as (id' & tm & Hid' & Htm & Hcb & Hdue).
      exists id', tm. split; [done|]. split; [|done].
      apply elem_of_app. by left.
    + apply list_elem_of_singleton in Hin as ->.
      exists id, (mkTimer (nextId w) (now w + 3000) (RemoveToast id)).
      split; [done|]. split; [|done].
      apply elem_of_app. right. apply list_elem_of_here.
Qed.

(** A call of [checkPattern] starts. *)
Lemma page_ok_call (symbol : string) (w : World) :
  page_ok w → page_ok (run_async symbol (checkPattern symbol) w).
Proof.
  intros (Htimers & Hfresh & Habort & Htoasts).
  destruct (call_shape symbol w) as (Ht & Hta & Hto & _ & Hn & Hnow).
  set (w' := run_async symbol (checkPattern symbol) w) in *.
  pose proof Htimers as [Hbound _].
  rewrite Forall_forall in Hbound.
  split; [|split; [|split]].
  - apply (timers_ok_grows w); [done|]. apply grows_checkPattern.
  - intros x Hx. rewrite Hn. rewrite Hta in Hx.
    apply elem_of_app in Hx as [Hx|Hx].
    + specialize (Hfresh x Hx). lia.
    + apply list_elem_of_singleton in Hx as ->. cbn. lia.
  - intros x c h Hx Hwait. rewrite Hn, Ht. rewrite Hta in Hx.
    apply elem_of_app in Hx as [Hx|Hx].
    + destruct (Habort x c h Hx Hwait) as [Hlt Hcb]. split; [lia|].
      intros tm Htm Hh.
      apply elem_of_app in Htm as [Htm|Htm]; [by apply Hcb|].
      apply list_elem_of_singleton in Htm as ->. cbn in Hh. lia.
    + apply list_elem_of_singleton in Hx as ->. cbn in Hwait.
      injection Hwait as <- <-. split; [lia|].
      intros tm Htm Hh.
      apply elem_of_app in Htm as [Htm|Htm].
      * specialize (Hbound tm Htm). lia.
      * by apply list_elem_of_singleton in Htm as ->.
  - intros t Hin. rewrite Hto in Hin. rewrite Ht, Hnow.
    destruct (Htoasts t Hin) as (id & tm & Hid & Htm & Hcb & Hdue).
    exists id, tm. split; [done|]. split; [|done].
    apply elem_of_app. by left.
Qed.

Lemma adds_toast_toast (args : object) (w : World) :
  adds_toast w (snd (UseToast.toast args w)).
Proof.
  destruct w as [w_sr w_ic w_to w_ti w_ta w_now w_id w_rng w_dr w_ca].
  eexists _, _. by page_eval. Qed.

Lemma adds_toast_after_json
  (symbol : string) (body : Settled json) (w : World) :
  adds_toast w (run_async symbol (checkPattern_after_json symbol body) w).
Proof.
  destruct w as [w_sr w_ic w_to w_ti w_ta w_now w_id w_rng w_dr w_ca].
  unfold run_async. destruct body as [j|err]; page_eval.
  - destruct (destructure "pattern_detected" j); cbn; by eexists _, _.
  - by eexists _, _.
Qed.

Lemma adds_toast_fetch_rejected
  (symbol : string) (c h : nat) (err : string) (w : World) :
  adds_toast w
    (run_async symbol (checkPattern_after_fetch symbol c h (Rejected err)) w).
Proof.
  destruct w as [w_sr w_ic w_to w_ti w_ta w_now w_id w_rng w_dr w_ca].
  unfold run_async. page_eval. by eexists _, _. Qed.

Lemma adds_toast_fetch_refused
  (symbol : string) (c h status : nat) (w : World) :
  ok status = false →
  adds_toast (snd (clearTimeout h w))
    (run_async symbol
       (checkPattern_after_fetch symbol c h (Resolved status)) w).
Proof.
  intros Hok.
  destruct w as [w_sr w_ic w_to w_ti w_ta w_now w_id w_rng w_dr w_ca].
  unfold run_async. page_eval. rewrite Hok. cbn. by eexists _, _.
Qed.

(** A response has arrived for a call that is off the queue: its abort
    timer is cleared, and the call goes back on the queue or ends with a
    toast. *)
Lemma page_ok_fetch_resolved
  (symbol : string) (c h status : nat) (w : World) :
  page_ok w →
  (c < nextId w)%nat →
  (∀ tm, tm ∈ timers w → handle tm = h → ∃ c', callback tm = AbortFetch c') →
  page_ok (run_async symbol
             (checkPattern_after_fetch symbol c h (Resolved status)) w).
Proof.
  intros Hok Hc Hh.
  destruct (clear_shape h w) as (Hct & Hcta & Hcto & Hcn & Hcnow).
  assert (page_ok (snd (clearTimeout h w))) as Hok1
    by (by apply (page_ok_clear w _ h)).
  destruct (ok status) eqn:Hstatus.
  - destruct (fetch_ok_shape symbol c h status w Hstatus)
      as (Ht & Hta & Hto & _ & Hn & Hnow).
    apply (page_ok_tasks (snd (clearTimeout h w))); [done|..].
    + intros x Hx. rewrite Hta in Hx. rewrite Hcta, Hcn.
      apply elem_of_app in Hx as [Hx|Hx]; [by left|].
      apply list_elem_of_singleton in Hx as ->. right. by eexists _, _.
    + by rewrite Ht, Hct.
    + by rewrite Hto, Hcto.
    + by rewrite Hn, Hcn.
    + by rewrite Hnow, Hcnow.
  - apply (page_ok_toast (snd (clearTimeout h w))); [done|].
    by apply adds_toast_fetch_refused.
Qed.

(** The timer of a toast fires. *)
Lemma page_ok_expire (w : World) (tm0 : Timer) (id0 : string) :
  page_ok w →
  tm0 ∈ timers w → callback tm0 = RemoveToast id0 →
  page_ok (snd (UseToast.remove_toast id0
                  (snd (clearTimeout (handle tm0) w)))).
Proof.
  intros (Htimers & Hfresh & Habort & Htoasts) Htm0 Hcb0.
  destruct (expire_shape id0 (handle tm0) w) as (Ht & Hto & Hta & Hn & Hnow).
  set (w' := snd (UseToast.remove_toast id0
                    (snd (clearTimeout (handle tm0) w)))) in *.
  split; [|split; [|split]].
  - apply (timers_ok_grows w); [done|].
    exists (fun t => negb (Nat.eqb (handle t) (handle tm0))), [].
    rewrite app_nil_r, Hn. split; [done|]. split; [lia|]. split; constructor.
  - intros x Hx. rewrite Hn. rewrite Hta in Hx. by apply Hfresh.
  - intros x c h Hx Hwait. rewrite Hn. rewrite Hta in Hx.
    destruct (Habort x c h Hx Hwait) as [Hlt Hcb]. split; [done|].
    intros tm Htm. rewrite Ht in Htm.
    apply elem_of_filter_bool in Htm as [Htm _]. by apply Hcb.
  - intros t Hin. rewrite Hto in Hin.
    apply elem_of_filter_bool in Hin as [Hin Hother].
    destruct (Htoasts t Hin) as (id & tm & Hid & Htm & Hcb & Hdue).
    exists id, tm. rewrite Hnow. split; [done|]. split; [|done].
    rewrite Ht. apply elem_of_filter_bool. split; [done|].
    apply negb_true_iff, Nat.eqb_neq. intros Heq.
    destruct Htimers as [_ Hnodup].
    assert (tm = tm0) as -> by (by apply (handle_inj (timers w))).
    rewrite Hcb0 in Hcb. injection Hcb as ->.
    unfold UseToast.other_id in Hother. rewrite Hid in Hother.
    cbn in Hother. by rewrite String.eqb_refl in Hother.
Qed.

Lemma page_ok_abort (c : nat) (w : World) : page_ok w → page_ok (abort c w).
Proof.
  intros Hok. unfold abort.
  destruct (take_task _ (tasks w)) as [[t rest]|] eqn:Htake; [|done].
  apply take_task_spec in Htake as [_ Hmem].
  assert (page_ok (with_tasks rest w)) as Hok1.
  { apply (page_ok_tasks w); try done. intros x Hx. left.
    apply Hmem. by right. }
  unfold resume_fetch, resume_json.
  destruct (awaiting t) as [c' h'|c'].
  - apply (page_ok_toast (with_tasks rest w)); [done|].
    apply adds_toast_fetch_rejected.
  - apply (page_ok_toast (with_tasks rest w)); [done|].
    apply adds_toast_after_json.
Qed.

Lemma exec_page_ok (e : Event) (w w' : World) :
  page_ok w → exec e w = Some w' → page_ok w'.
Proof.
  intros Hok.
  destruct e as [symbol|args|symbol|c res|c body|h|dt]; cbn [exec];
    intros Hexec.
  - injection Hexec as <-. by apply page_ok_call.
  - injection Hexec as <-.
    eapply page_ok_toast; [done|apply adds_toast_toast].
  - destruct (find_card symbol w) as [card|]; [|done].
    destruct (dom_disabled (button card)); [done|].
    injection Hexec as <-. by apply page_ok_call.
  - destruct (take_task _ (tasks w)) as [[t rest]|] eqn:Htake; [|done].
    injection Hexec as <-.
    apply take_task_spec in Htake as [Hwait Hmem].
    assert (t ∈ tasks w) as Ht by (apply Hmem; by left).
    assert (page_ok (with_tasks rest w)) as Hok1.
    { apply (page_ok_tasks w); try done. intros x Hx. left.
      apply Hmem. by right. }
    unfold resume_fetch, awaits_fetch in *.
    destruct (awaiting t) as [c' h'|c'] eqn:Hawait; [|done].
    destruct res as [status|err].
    + destruct Hok as (Htimers & Hfresh & Habort & Htoasts).
      destruct (Habort t c' h' Ht Hawait) as [_ Hcb].
      apply page_ok_fetch_resolved; [done| |].
      * specialize (Hfresh t Ht). unfold task_request in Hfresh.
        by rewrite Hawait in Hfresh.
      * intros tm Htm Hh. exists c'. by apply Hcb.
    + eapply page_ok_toast; [exact Hok1|apply adds_toast_fetch_rejected].
  - destruct (take_task _ (tasks w)) as [[t rest]|] eqn:Htake; [|done].
    injection Hexec as <-.
    apply take_task_spec in Htake as [_ Hmem].
    assert (page_ok (with_tasks rest w)) as Hok1.
    { apply (page_ok_tasks w); try done. intros x Hx. left.
      apply Hmem. by right. }
    eapply page_ok_toast; [exact Hok1|apply adds_toast_after_json].
  - destruct (find_timer h w) as [tm|] eqn:Hfind; [|done].
    destruct (due tm <=? now w)%N; [|done].
    injection Hexec as <-.
    apply find_timer_some in Hfind as [Htm <-].
    destruct (callback tm) as [id|c] eqn:Hcb; cbn [run_callback].
    + by apply page_ok_expire.
    + apply page_ok_abort.
      apply (page_ok_clear w _ (handle tm)); try done.
      intros tm' Htm' Heq. exists c.
      destruct Hok as ([_ Hnodup] & _).
      by rewrite (handle_inj (timers w) tm' tm Hnodup Htm' Htm Heq).
  - injection Hexec as <-.
    destruct Hok as (Htimers & Hfresh & Habort & Htoasts).
    split; [done|]. split; [done|]. split; [done|].
    intros t Hin. destruct (Htoasts t Hin) as (id & tm & Hid & Htm & Hcb & Hdue).
    exists id, tm. repeat split; try done. cbn. lia.
Qed.

(** X10. On every page that the first rendering can lead to, however the
    calls, the responses, the timers and the clicks interleave, each toast on
    the page has a pending timer that removes the toasts of its identifier
    and is due at most 3000 ms from now; [clearTimeout(timeoutId)] in
    [checkPattern] only ever clears the abort timer of its own call, never
    the timer of a toast. *)
Theorem toasts_keep_their_timers
  (rng : nat → string) (es : list Event) (w : World) :
  run es (initial rng) = Some w →
  toasts_have_timers w ∧ abort_handles_ok w ∧ timers_ok w.
Proof.
  assert (Hrun : ∀ es w0 w1,
            page_ok w0 → run es w0 = Some w1 → page_ok w1).
  { clear. induction es as [|e es IH]; intros w0 w1 Hok; cbn.
    - by intros [= <-].
    - destruct (exec e w0) as [w'|] eqn:Hexec; [|done].
      apply IH. by apply (exec_page_ok e w0). }
  intros Hes.
  assert (page_ok (initial rng)) as Hinit.
  { split; [split; constructor|]. split; [|split].
    - intros t Ht. by apply not_elem_of_nil in Ht.
    - intros t c h Ht. by apply not_elem_of_nil in Ht.
    - intros t Ht. by apply not_elem_of_nil in Ht. }
  destruct (Hrun es _ _ Hinit Hes) as (? & ? & ? & ?). done.
Qed.

(** *** A check that gets no answer *)

Lemma find_timer_new (l : list Timer) (tm : Timer) :
  Forall (fun t => (handle t < handle tm)%nat) l →
  List.find (fun t => Nat.eqb (handle t) (handle tm)) (l ++ [tm]) = Some tm.
Proof.
  induction l as [|t l IH]; intros Hall; cbn.
  - by rewrite Nat.eqb_refl.
  - apply Forall_cons in Hall as [Ht Hall].
    destruct (Nat.eqb (handle t) (handle tm)) eqn:E; [|by apply IH].
    apply Nat.eqb_eq in E. lia.
Qed.

Lemma take_task_new (P : Task → bool) (l : list Task) (t : Task) :
  Forall (fun x => P x = false) l → P t = true →
  take_task P (l ++ [t]) = Some (t, l).
Proof.
  intros Hall Ht. induction l as [|x l IH]; cbn.
  - by rewrite Ht.
  - apply Forall_cons in Hall as [Hx Hall]. by rewrite Hx, (IH Hall).
Qed.

Lemma toasts_fetch_rejected
  (symbol : string) (c h : nat) (err : string) (w : World) :
  toasts (run_async symbol
            (checkPattern_after_fetch symbol c h (Rejected err)) w)
  = toasts w ++ [error_toast w].
Proof.
  destruct w as [w_sr w_ic w_to w_ti w_ta w_now w_id w_rng w_dr w_ca].
  unfold run_async. by page_eval.
Qed.

(** X11. From a page whose timers and waiting calls carry handles that were
    handed out before, a check that gets no answer ends by its own timer:
    the timer cannot fire before 3000 ms have passed, and when it fires
    after that the call ends as a failure, with the marker cleared, the
    result [null], the card at "Not checked" and the error toast added. The
    other waiting calls stay as they are. *)
Theorem check_times_out (symbol : string) (dt : N) (w : World) :
  timers_ok w →
  tasks_fresh w →
  if (3000 <=? dt)%N
  then ∃ w',
         run [Call_checkPattern symbol; Advance dt;
              TimerFires (S (nextId w))] w
         = Some w'
         ∧ isChecking w' !! symbol = Some false
         ∧ obj_get symbol (stockResults w') = VNull
         ∧ shown symbol w' = "Not checked"
         ∧ tasks w' = tasks w
         ∧ ∃ t, toasts w' = toasts w ++ [t]
                ∧ obj_get "title" t = VStr "Error"
  else run [Call_checkPattern symbol; Advance dt;
            TimerFires (S (nextId w))] w
       = None.
Proof.
  intros [Hbound _] Hfresh.
  destruct (call_shape symbol w)
    as (Htimers & Htasks & Htoasts & _ & _ & Hnow1).
  set (w1 := run_async symbol (checkPattern symbol) w) in *.
  set (w2 := with_now (now w1 + dt)%N w1).
  assert (now w2 = (now w + dt)%N) as Hnow by (cbn; by rewrite Hnow1).
  change (timers w1) with (timers w2) in Htimers.
  change (tasks w1) with (tasks w2) in Htasks.
  change (toasts w1) with (toasts w2) in Htoasts.
  assert (exec (TimerFires (S (nextId w))) w2
          = if (now w + 3000 <=? now w2)%N
            then Some (run_async symbol
                         (fails symbol (nextId w) (S (nextId w)) ClientTimeout)
                         (with_tasks (tasks w)
                            (snd (clearTimeout (S (nextId w)) w2))))
            else None) as Hexec.
  { apply timer_aborts_fetch.
    - unfold find_timer. rewrite Htimers.
      apply (find_timer_new (timers w)
               (mkTimer (S (nextId w)) (now w + 3000)
                        (AbortFetch (nextId w)))).
      eapply Forall_impl; [exact Hbound|]. cbn. lia.
    - rewrite Htasks. apply take_task_new; [|cbn; apply Nat.eqb_refl].
      apply Forall_forall. intros t Ht. apply Nat.eqb_neq.
      specialize (Hfresh t Ht). lia. }
  change (run [Call_checkPattern symbol; Advance dt;
               TimerFires (S (nextId w))] w)
    with (match exec (TimerFires (S (nextId w))) w2 with
          | Some w' => Some w'
          | None => None
          end).
  rewrite Hexec, Hnow.
  destruct (3000 <=? dt)%N eqn:Hdt.
  - apply N.leb_le in Hdt.
    assert ((now w + 3000 <=? now w + dt)%N = true) as ->
      by (apply N.leb_le; lia).
    set (W := with_tasks (tasks w) (snd (clearTimeout (S (nextId w)) w2))).
    eexists. split; [reflexivity|].
    change (fails symbol (nextId w) (S (nextId w)) ClientTimeout)
      with (resume symbol
              (FetchArrives (nextId w) (S (nextId w))
                            (Rejected "AbortError"))).
    destruct (resume_footprint symbol
                (FetchArrives (nextId w) (S (nextId w))
                              (Rejected "AbortError")) W)
      as (Hres & Hchk & _).
    cbn [ends fetch_failed result_of] in Hres, Hchk.
    pose proof (toasts_fetch_rejected symbol (nextId w) (S (nextId w))
                  "AbortError" W) as Hto.
    destruct (adds_toast_fetch_rejected symbol (nextId w) (S (nextId w))
                "AbortError" W) as (_ & _ & _ & _ & _ & Hta & _).
    cbn [resume] in *.
    split; [rewrite Hchk; apply lookup_insert_eq|].
    split; [rewrite Hres; apply obj_get_set_eq|]. split.
    + unfold shown, checking.
      by rewrite Hres, Hchk, obj_get_set_eq, lookup_insert_eq.
    + split; [by rewrite Hta|].
      exists (error_toast W). by rewrite Hto.
  - apply N.leb_gt in Hdt.
    assert ((now w + 3000 <=? now w + dt)%N = false) as ->
      by (apply N.leb_gt; lia).
    done.
Qed.

Lemma check_times_out_witness :
  ∃ w',
    run [Call_checkPattern "MSFT"; Advance 3000; TimerFires 1]
        (initial sample_rng)
    = Some w'
    ∧ isChecking w' !! "MSFT" = Some false
    ∧ obj_get "MSFT" (stockResults w') = VNull
    ∧ shown "MSFT" w' = "Not checked"
    ∧ tasks w' = []
    ∧ ∃ t, toasts w' = [t] ∧ obj_get "title" t = VStr "Error".
Proof.
  apply (check_times_out "MSFT" 3000 (initial sample_rng)).
  - split; constructor.
  - intros t Ht. by apply not_elem_of_nil in Ht.
Defined.

Lemma toasts_keep_their_timers_witness :
  ∃ w,
    run [Click "AAPL"; Call_toast generic_failure;
         FetchSettles 0 (Resolved 500); Advance 3000; TimerFires 2]
        (initial sample_rng)
    = Some w
    ∧ toasts_have_timers w ∧ abort_handles_ok w ∧ timers_ok w.
Proof.
  exists (default (initial sample_rng)
            (run [Click "AAPL"; Call_toast generic_failure;
                  FetchSettles 0 (Resolved 500); Advance 3000; TimerFires 2]
                 (initial sample_rng))).
  split; [vm_compute; reflexivity|].
  apply (toasts_keep_their_timers sample_rng
           [Click "AAPL"; Call_toast generic_failure;
            FetchSettles 0 (Resolved 500); Advance 3000; TimerFires 2]).
  vm_compute. reflexivity.
Defined.

(** *** Overlapping checks *)

(** X12. The marker does not count the calls. When the answer of one call
    for a symbol has been read, the marker of the symbol is [false] and the
    button of its card takes a click again, whatever other calls for the same
    symbol are still waiting in the queue. *)
Theorem button_enabled_while_call_waits
  (w : World) (c : nat) (body : Settled json) (t : Task) (rest : list Task) :
  take_task (awaits_json c) (tasks w) = Some (t, rest) →
  task_symbol t ∈ Object_keys (stockResults w) →
  ∃ w' w'',
    exec (JsonSettles c body) w = Some w'
    ∧ isChecking w' !! task_symbol t = Some false
    ∧ tasks w' = rest
    ∧ exec (Click (task_symbol t)) w' = Some w''
    ∧ tasks w''
      = rest ++ [mkTask (task_symbol t)
                        (AwaitFetch (nextId w') (S (nextId w')))].
Proof.
  intros Htake Htracked. cbn [exec]. rewrite Htake.
  set (w' := resume_json t body (with_tasks rest w)).
  destruct (after_json_footprint (task_symbol t) body (with_tasks rest w))
    as [Hchk Htasks].
  destruct (resume_footprint (task_symbol t) (JsonArrives body)
              (with_tasks rest w)) as (Hres & _ & _).
  cbn [resume ends] in Hres.
  change (run_async (task_symbol t)
            (checkPattern_after_json (task_symbol t) body)
            (with_tasks rest w)) with w' in *.
  assert (isChecking w' !! task_symbol t = Some false) as Hmarker
    by (rewrite Hchk; apply lookup_insert_eq).
  assert (task_symbol t ∈ Object_keys (stockResults w')) as Htracked'.
  { rewrite Hres. apply elem_of_keys_obj_set. by right. }
  eexists w', _. split; [done|]. split; [done|]. split; [done|].
  rewrite (find_card_tracked _ _ Htracked'). cbn.
  unfold checking. rewrite Hmarker. cbn. split; [reflexivity|].
  destruct (call_shape (task_symbol t) w') as (_ & Hcall & _).
  by rewrite Hcall, Htasks.
Qed.

Lemma button_enabled_while_call_waits_witness :
  ∃ w' w'',
    exec (JsonSettles 2
            (Resolved (JObj [("pattern_detected", JBool false)])))
         (default (initial sample_rng)
            (run [Call_checkPattern "GOOGL"; Call_checkPattern "GOOGL";
                  FetchSettles 2 (Resolved 200)] (initial sample_rng)))
    = Some w'
    ∧ isChecking w' !! "GOOGL" = Some false
    ∧ tasks w' = [mkTask "GOOGL" (AwaitFetch 0 1)]
    ∧ exec (Click "GOOGL") w' = Some w''
    ∧ tasks w''
      = [mkTask "GOOGL" (AwaitFetch 0 1)]
        ++ [mkTask "GOOGL" (AwaitFetch (nextId w') (S (nextId w')))].
Proof.
  apply (button_enabled_while_call_waits
           (default (initial sample_rng)
              (run [Call_checkPattern "GOOGL"; Call_checkPattern "GOOGL";
                    FetchSettles 2 (Resolved 200)] (initial sample_rng)))
           2 (Resolved (JObj [("pattern_detected", JBool false)]))
           (mkTask "GOOGL" (AwaitJson 2))
           [mkTask "GOOGL" (AwaitFetch 0 1)]).
  - vm_compute. reflexivity.
  - vm_compute. do 2 apply list_elem_of_further. apply list_elem_of_here.
Defined.

Lemma no_leaked_marker_witness :
  ∃ w,
    run [Call_checkPattern "GOOGL"; Call_checkPattern "GOOGL";
         FetchSettles 2 (Resolved 200);
         JsonSettles 2 (Resolved (JObj [("pattern_detected", JBool false)]));
         Click "GOOGL"; Advance 3000; TimerFires 1]
        (initial sample_rng)
    = Some w
    ∧ no_leak w.
Proof.
  exists (default (initial sample_rng)
            (run [Call_checkPattern "GOOGL"; Call_checkPattern "GOOGL";
                  FetchSettles 2 (Resolved 200);
                  JsonSettles 2
                    (Resolved (JObj [("pattern_detected", JBool false)]));
                  Click "GOOGL"; Advance 3000; TimerFires 1]
                 (initial sample_rng))).
  split; [vm_compute; reflexivity|].
  apply (no_leaked_marker sample_rng
           [Call_checkPattern "GOOGL"; Call_checkPattern "GOOGL";
            FetchSettles 2 (Resolved 200);
            JsonSettles 2
              (Resolved (JObj [("pattern_detected", JBool false)]));
            Click "GOOGL"; Advance 3000; TimerFires 1]).
  vm_compute. reflexivity.
Defined.

(** *** What no run of the page does *)

Ltac quiet_lists :=
  repeat rewrite Forall_app; repeat split;
  first [assumption | by apply Forall_nil | by apply Forall_singleton].

Ltac quiet_calls := unfold quiet; page_eval; intros Hquiet; quiet_lists.

Lemma quiet_call (symbol : string) (w : World) :
  quiet w → quiet (run_async symbol (checkPattern symbol) w).
Proof.
  destruct w as [w_sr w_ic w_to w_ti w_ta w_now w_id w_rng w_dr w_ca].
  quiet_calls.
Qed.

Lemma quiet_resume (symbol : string) (r : Resumption) (w : World) :
  quiet w → quiet (run_async symbol (resume symbol r) w).
Proof.
  destruct w as [w_sr w_ic w_to w_ti w_ta w_now w_id w_rng w_dr w_ca].
  destruct r as [c h [status|err]|[j|err]].
  - unfold quiet. page_eval. destruct (ok status); page_eval;
      intros Hquiet; quiet_lists.
  - quiet_calls.
  - unfold quiet. page_eval.
    destruct (destructure "pattern_detected" j); page_eval;
      intros Hquiet; quiet_lists.
  - quiet_calls.
Qed.

Lemma quiet_abort (c : nat) (w : World) : quiet w → quiet (abort c w).
Proof.
  intros Hquiet. unfold abort.
  destruct (take_task _ (tasks w)) as [[t rest]|]; [|done].
  unfold resume_fetch, resume_json.
  destruct (awaiting t) as [c' h'|c'].
  - by apply (quiet_resume _ (FetchArrives c' h' (Rejected "AbortError"))
                (with_tasks rest w)).
  - by apply (quiet_resume _ (JsonArrives (Rejected "AbortError"))
                (with_tasks rest w)).
Qed.

Lemma exec_quiet (e : Event) (w w' : World) :
  quiet w → exec e w = Some w' → quiet w'.
Proof.
  intros Hquiet.
  destruct e as [symbol|args|symbol|c res|c body|h|dt]; cbn [exec];
    intros Hexec.
  - injection Hexec as <-. by apply quiet_call.
  - injection Hexec as <-. revert Hquiet.
    destruct w as [w_sr w_ic w_to w_ti w_ta w_now w_id w_rng w_dr w_ca].
    quiet_calls.
  - destruct (find_card symbol w) as [card|]; [|done].
    destruct (dom_disabled (button card)); [done|].
    injection Hexec as <-. by apply quiet_call.
  - destruct (take_task _ (tasks w)) as [[t rest]|]; [|done].
    injection Hexec as <-. unfold resume_fetch.
    destruct (awaiting t) as [c' h'|c']; [|done].
    by apply (quiet_resume _ (FetchArrives c' h' res) (with_tasks rest w)).
  - destruct (take_task _ (tasks w)) as [[t rest]|]; [|done].
    injection Hexec as <-.
    by apply (quiet_resume _ (JsonArrives body) (with_tasks rest w)).
  - destruct (find_timer h w) as [tm|]; [|done].
    destruct (due tm <=? now w)%N; [|done].
    injection Hexec as <-.
    assert (quiet (snd (clearTimeout h w))) as Hquiet'
      by (by destruct w).
    destruct (callback tm) as [id|c]; cbn [run_callback].
    + clear Hquiet'. revert Hquiet.
      destruct w as [w_sr w_ic w_to w_ti w_ta w_now w_id w_rng w_dr w_ca].
      quiet_calls.
    + by apply quiet_abort.
  - by injection Hexec as <-.
Qed.

(** X13. No error leaves the page unhandled: in every run from the first
    rendering, whatever the network answers and whenever the timers fire,
    every call of [checkPattern] ends by returning, and no promise is
    rejected without a handler. *)
Theorem no_unhandled_rejection
  (rng : nat → string) (es : list Event) (w : World) :
  run es (initial rng) = Some w →
  List.filter is_unhandled (calls w) = [].
Proof.
  assert (Hrun : ∀ es w0 w1, quiet w0 → run es w0 = Some w1 → quiet w1).
  { clear. induction es as [|e es IH]; intros w0 w1 Hquiet; cbn.
    - by intros [= <-].
    - destruct (exec e w0) as [w'|] eqn:Hexec; [|done].
      apply IH. by apply (exec_quiet e w0). }
  intros Hes.
  assert (quiet w) as Hquiet by (apply (Hrun es (initial rng)); [constructor|done]).
  unfold quiet in Hquiet. induction (calls w) as [|c cs IH]; [done|].
  apply Forall_cons in Hquiet as [Hc Hcs]. cbn. rewrite Hc. by apply IH.
Qed.

Lemma no_unhandled_rejection_witness :
  ∃ w,
    run [Click "TSLA"; FetchSettles 0 (Rejected "TypeError: Failed to fetch");
         Click "TSLA"; FetchSettles 3 (Resolved 200);
         JsonSettles 3 (Resolved JNull); Advance 3000; TimerFires 1]
        (initial sample_rng)
    = Some w
    ∧ List.filter is_unhandled (calls w) = [].
Proof.
  exists (default (initial sample_rng)
            (run [Click "TSLA";
                  FetchSettles 0 (Rejected "TypeError: Failed to fetch");
                  Click "TSLA"; FetchSettles 3 (Resolved 200);
                  JsonSettles 3 (Resolved JNull); Advance 3000; TimerFires 1]
                 (initial sample_rng))).
  split; [vm_compute; reflexivity|].
  apply (no_unhandled_rejection sample_rng
           [Click "TSLA";
            FetchSettles 0 (Rejected "TypeError: Failed to fetch");
            Click "TSLA"; FetchSettles 3 (Resolved 200);
            JsonSettles 3 (Resolved JNull); Advance 3000; TimerFires 1]).
  vm_compute. reflexivity.
Defined.

(** *** The cards of the page *)

Lemma toast_frame (args : object) (w : World) :
  stockResults (snd (UseToast.toast args w)) = stockResults w
  ∧ tasks (snd (UseToast.toast args w)) = tasks w.
Proof. by destruct w. Qed.

Lemma expire_frame (cb : string) (h : nat) (w : World) :
  stockResults (snd (UseToast.remove_toast cb (snd (clearTimeout h w))))
  = stockResults w
  ∧ tasks (snd (UseToast.remove_toast cb (snd (clearTimeout h w))))
    = tasks w.
Proof. by destruct w. Qed.

Lemma clear_frame (h : nat) (w : World) :
  stockResults (snd (clearTimeout h w)) = stockResults w
  ∧ tasks (snd (clearTimeout h w)) = tasks w.
Proof. by destruct w. Qed.

Lemma render_symbols (w : World) :
  card_symbol <$> render w = Object_keys (stockResults w).
Proof.
  unfold render. generalize (Object_keys (stockResults w)) as ks.
  induction ks as [|k ks IH]; [done|].
  rewrite !fmap_cons. by f_equal.
Qed.

Lemma cards_ok_frame (w w' : World) :
  stockResults w' = stockResults w → tasks w' = tasks w →
  cards_ok w → cards_ok w'.
Proof. intros Hres Hta. unfold cards_ok. by rewrite Hres, Hta. Qed.

Lemma cards_ok_call (symbol : string) (w : World) :
  cards_ok w →
  symbol ∈ Object_keys (stockResults w) →
  cards_ok (run_async symbol (checkPattern symbol) w).
Proof.
  intros [Hkeys Htasks] Hin.
  destruct (call_shape symbol w) as (_ & Hta & _ & Hres & _).
  split; [by rewrite Hres|].
  intros x Hx. rewrite Hta in Hx.
  apply elem_of_app in Hx as [Hx|Hx]; [by apply Htasks|].
  apply list_elem_of_singleton in Hx as ->. cbn [task_symbol].
  by rewrite <- Hkeys.
Qed.

(** A call that was waiting is taken off the queue and resumed. *)
Lemma cards_ok_resume
  (w : World) (t : Task) (rest : list Task) (r : Resumption) :
  cards_ok w →
  (∀ x, x ∈ tasks w ↔ x = t ∨ x ∈ rest) →
  cards_ok (run_async (task_symbol t) (resume (task_symbol t) r)
              (with_tasks rest w)).
Proof.
  intros [Hkeys Htasks] Hmem.
  assert (task_symbol t ∈ Object_keys tracked) as Ht
    by (apply Htasks, Hmem; by left).
  destruct (resume_footprint (task_symbol t) r (with_tasks rest w))
    as (Hres & _ & Hta).
  split.
  - rewrite Hres. destruct (ends r); [|done].
    rewrite Object_keys_obj_set.
    change (stockResults (with_tasks rest w)) with (stockResults w).
    rewrite Hkeys. by destruct (decide _).
  - intros x Hx. destruct (Hta x Hx) as [Hin| ->]; [|done].
    apply Htasks, Hmem. by right.
Qed.

Lemma cards_ok_abort (c : nat) (w : World) :
  cards_ok w → cards_ok (abort c w).
Proof.
  intros Hok. unfold abort.
  destruct (take_task _ (tasks w)) as [[t rest]|] eqn:Htake; [|done].
  apply take_task_spec in Htake as [_ Hmem].
  unfold resume_fetch, resume_json.
  destruct (awaiting t) as [c' h'|c'].
  - by apply (cards_ok_resume w t rest
                (FetchArrives c' h' (Rejected "AbortError"))).
  - by apply (cards_ok_resume w t rest (JsonArrives (Rejected "AbortError"))).
Qed.

Lemma exec_cards_ok (e : Event) (w w' : World) :
  user_event e = true → cards_ok w → exec e w = Some w' → cards_ok w'.
Proof.
  intros Huser Hok.
  destruct e as [symbol|args|symbol|c res|c body|h|dt]; cbn [exec];
    intros Hexec; try discriminate.
  - injection Hexec as <-.
    destruct (toast_frame args w) as [Hres Hta].
    by apply (cards_ok_frame w).
  - rewrite find_card_spec in Hexec.
    destruct (decide (symbol ∈ Object_keys (stockResults w)))
      as [Hin|Hnot]; [|done].
    destruct (dom_disabled _); [done|].
    injection Hexec as <-. by apply cards_ok_call.
  - destruct (take_task _ (tasks w)) as [[t rest]|] eqn:Htake; [|done].
    injection Hexec as <-.
    apply take_task_spec in Htake as [Hwait Hmem].
    unfold resume_fetch, awaits_fetch in *.
    destruct (awaiting t) as [c' h'|c']; [|done].
    by apply (cards_ok_resume w t rest (FetchArrives c' h' res)).
  - destruct (take_task _ (tasks w)) as [[t rest]|] eqn:Htake; [|done].
    injection Hexec as <-.
    apply take_task_spec in Htake as [_ Hmem].
    by apply (cards_ok_resume w t rest (JsonArrives body)).
  - destruct (find_timer h w) as [tm|]; [|done].
    destruct (due tm <=? now w)%N; [|done].
    injection Hexec as <-.
    destruct (callback tm) as [id|c]; cbn [run_callback].
    + destruct (expire_frame id h w) as [Hres Hta].
      by apply (cards_ok_frame w).
    + apply cards_ok_abort.
      destruct (clear_frame h w) as [Hres Hta].
      by apply (cards_ok_frame w).
  - by injection Hexec as <-.
Qed.

(** X14. Whatever the user, the network and the timers do, the page keeps
    drawing the same seven cards in the same order: a check never adds,
    drops or moves a card, and every call that waits is for one of the seven
    symbols. Only a call of [checkPattern] from outside the cards could
    add a key. *)
Theorem cards_stay
  (rng : nat → string) (es : list Event) (w : World) :
  forallb user_event es = true →
  run es (initial rng) = Some w →
  card_symbol <$> render w
  = ["AAPL"; "MSFT"; "GOOGL"; "AMZN"; "TSLA"; "META"; "NVDA"]
  ∧ ∀ t, t ∈ tasks w → task_symbol t ∈ Object_keys tracked.
Proof.
  assert (Hrun : ∀ es w0 w1,
            forallb user_event es = true → cards_ok w0 →
            run es w0 = Some w1 → cards_ok w1).
  { clear. induction es as [|e es IH]; intros w0 w1 Huser Hok; cbn.
    - by intros [= <-].
    - cbn in Huser. apply andb_true_iff in Huser as [He Hes].
      destruct (exec e w0) as [w'|] eqn:Hexec; [|done].
      apply (IH _ _ Hes). by apply (exec_cards_ok e w0). }
  intros Huser Hes.
  assert (cards_ok (initial rng)) as Hinit.
  { split; [done|]. intros t Ht. by apply not_elem_of_nil in Ht. }
  destruct (Hrun es _ _ Huser Hinit Hes) as [Hkeys Htasks].
  split; [|done].
  change ["AAPL"; "MSFT"; "GOOGL"; "AMZN"; "TSLA"; "META"; "NVDA"]
    with (Object_keys tracked).
  rewrite <- Hkeys. apply render_symbols.
Qed.

Lemma cards_stay_witness :
  ∃ w,
    run [Click "NVDA"; FetchSettles 0 (Resolved 200);
         JsonSettles 0 (Resolved (JObj [("pattern_detected", JBool true)]));
         Click "AAPL"; FetchSettles 3 (Resolved 404)]
        (initial sample_rng)
    = Some w
    ∧ card_symbol <$> render w
      = ["AAPL"; "MSFT"; "GOOGL"; "AMZN"; "TSLA"; "META"; "NVDA"]
    ∧ ∀ t, t ∈ tasks w → task_symbol t ∈ Object_keys tracked.
Proof.
  exists (default (initial sample_rng)
            (run [Click "NVDA"; FetchSettles 0 (Resolved 200);
                  JsonSettles 0
                    (Resolved (JObj [("pattern_detected", JBool true)]));
                  Click "AAPL"; FetchSettles 3 (Resolved 404)]
                 (initial sample_rng))).
  split; [vm_compute; reflexivity|].
  apply (cards_stay sample_rng
           [Click "NVDA"; FetchSettles 0 (Resolved 200);
            JsonSettles 0
              (Resolved (JObj [("pattern_detected", JBool true)]));
            Click "AAPL"; FetchSettles 3 (Resolved 404)]).
  - reflexivity.
  - vm_compute. reflexivity.
Defined.

(** ** Further properties of the health monitor *)

Lemma Layout_exec_flags
  (env : option string) (e : Layout.Event) (s s' : Layout.State) :
  Layout.exec env e s = Some s' →
  match e with
  | Layout.Interval =>
      Layout.isBackendHealthy s' = Layout.isBackendHealthy s
      ∧ Layout.showHealthAlert s' = Layout.showHealthAlert s
  | Layout.Settles p =>
      Layout.isBackendHealthy s' = Layout.succeeds p
      ∧ Layout.showHealthAlert s' = negb (Layout.succeeds p)
  | Layout.Dismiss =>
      Layout.isBackendHealthy s' = Layout.isBackendHealthy s
      ∧ Layout.showHealthAlert s' = false
  end.
Proof.
  destruct s as [healthy visible n l].
  destruct e as [|p|]; cbn [Layout.exec].
  - layout_run. by intros [= <-].
  - destruct n as [|n]; [done|]. intros [= <-].
    destruct p as [status| |]; cbn; layout_run; [|done..].
    by destruct (ok status).
  - unfold Layout.banner. cbn.
    destruct (visible && negb healthy); [|done]. by intros [= <-].
Qed.

Lemma last_shown_settled (es : list Layout.Event) :
  match last_shown es with
  | Some (Layout.Settles p) => last_settled es = Some p
  | Some _ => True
  | None => last_settled es = None
  end.
Proof.
  induction es as [|e es IH]; cbn; [done|].
  destruct (last_shown es) as [[|p|]|]; try done.
  - by rewrite IH.
  - rewrite IH. by destruct e.
Qed.

(** X15. What the page shows follows the poll that settled last, however
    the polls overlap: before any poll has settled the badge says
    "Healthy"; afterwards it says "Healthy" exactly when the last poll to
    settle succeeded, and the banner is up exactly when that poll failed and
    the user has not dismissed it since. *)
Theorem health_follows_last_poll
  (env : option string) (es : list Layout.Event) (s : Layout.State) :
  Layout_run env es Layout.initial = Some s →
  Layout.isBackendHealthy s
  = match last_settled es with
    | Some p => Layout.succeeds p
    | None => true
    end
  ∧ Layout.badge s
    = match last_settled es with
      | Some p => if Layout.succeeds p then "Healthy" else "Unhealthy"
      | None => "Healthy"
      end
  ∧ Layout.banner s
    = match last_shown es with
      | Some (Layout.Settles p) => negb (Layout.succeeds p)
      | _ => false
      end.
Proof.
  assert (Hgen : ∀ es s0 s,
    Layout_run env es s0 = Some s →
    Layout.isBackendHealthy s
    = match last_settled es with
      | Some p => Layout.succeeds p
      | None => Layout.isBackendHealthy s0
      end
    ∧ Layout.showHealthAlert s
      = match last_shown es with
        | Some (Layout.Settles p) => negb (Layout.succeeds p)
        | Some _ => false
        | None => Layout.showHealthAlert s0
        end).
  { clear. induction es as [|e es IH]; intros s0 s; cbn.
    - by intros [= <-].
    - destruct (Layout.exec env e s0) as [s1|] eqn:Hexec; [|done].
      intros Hrun. destruct (IH s1 s Hrun) as (Hh & Hv).
      apply Layout_exec_flags in Hexec.
      pose proof (last_shown_settled es) as Hrel.
      rewrite Hh, Hv.
      destruct (last_shown es) as [[|p|]|];
        destruct (last_settled es) as [q|];
        try done; destruct e as [|p'|]; destruct Hexec as [He1 He2];
        rewrite ?He1, ?He2; done. }
  intros Hrun. destruct (Hgen es _ _ Hrun) as (Hh & Hv).
  pose proof (last_shown_settled es) as Hrel.
  split; [done|]. split.
  - unfold Layout.badge. rewrite Hh.
    by destruct (last_settled es).
  - unfold Layout.banner. rewrite Hh, Hv.
    destruct (last_shown es) as [[|p|]|]; try done.
    rewrite Hrel. by destruct (Layout.succeeds p).
Qed.

Lemma health_follows_last_poll_witness :
  ∃ s,
    Layout_run None
      [Layout.Interval; Layout.Interval;
       Layout.Settles Layout.Timeout; Layout.Dismiss;
       Layout.Settles (Layout.Responds 200); Layout.Interval;
       Layout.Settles (Layout.Responds 503)]
      Layout.initial
    = Some s
    ∧ Layout.isBackendHealthy s = false
    ∧ Layout.badge s = "Unhealthy"
    ∧ Layout.banner s = true.
Proof.
  exists (default Layout.initial
            (Layout_run None
               [Layout.Interval; Layout.Interval;
                Layout.Settles Layout.Timeout; Layout.Dismiss;
                Layout.Settles (Layout.Responds 200); Layout.Interval;
                Layout.Settles (Layout.Responds 503)]
               Layout.initial)).
  split; [vm_compute; reflexivity|].
  apply (health_follows_last_poll None
           [Layout.Interval; Layout.Interval;
            Layout.Settles Layout.Timeout; Layout.Dismiss;
            Layout.Settles (Layout.Responds 200); Layout.Interval;
            Layout.Settles (Layout.Responds 503)]).
  vm_compute. reflexivity.
Defined.

(** X16. The banner is never up while the badge says "Healthy": on every
    state that the monitor reaches, [showHealthAlert] implies
    [!isBackendHealthy], so that the second half of the banner's condition
    never decides, and a dismissal is possible exactly while
    [showHealthAlert] is set. *)
Theorem banner_only_when_unhealthy
  (env : option string) (es : list Layout.Event) (s : Layout.State) :
  Layout_run env es Layout.initial = Some s →
  Layout.health s ≠ Layout.Healthy_Visible
  ∧ Layout.banner s = Layout.showHealthAlert s
  ∧ (Layout.exec env Layout.Dismiss s ≠ None
     ↔ Layout.showHealthAlert s = true).
Proof.
  assert (Hgen : ∀ es s0 s,
    Layout.health s0 ≠ Layout.Healthy_Visible →
    Layout_run env es s0 = Some s →
    Layout.health s ≠ Layout.Healthy_Visible).
  { clear. induction es as [|e es IH]; intros s0 s Hinv; cbn.
    - by intros [= <-].
    - destruct (Layout.exec env e s0) as [s1|] eqn:Hexec; [|done].
      apply IH. apply Layout_exec_flags in Hexec.
      unfold Layout.health in *.
      destruct e as [|p|]; destruct Hexec as [He1 He2];
        rewrite He1, He2; try done.
      + by destruct (Layout.succeeds p).
      + by destruct (Layout.isBackendHealthy s0). }
  intros Hrun.
  assert (Layout.health s ≠ Layout.Healthy_Visible) as Hinv
    by (by apply (Hgen es Layout.initial)).
  split; [done|].
  destruct s as [[] [] n l]; cbn in *; try done; split; try done;
    split; done.
Qed.

Lemma banner_only_when_unhealthy_witness :
  ∃ s,
    Layout_run None
      [Layout.Interval; Layout.Settles Layout.TransportError;
       Layout.Interval; Layout.Settles (Layout.Responds 200)]
      Layout.initial
    = Some s
    ∧ Layout.health s ≠ Layout.Healthy_Visible
    ∧ Layout.banner s = Layout.showHealthAlert s
    ∧ (Layout.exec None Layout.Dismiss s ≠ None
       ↔ Layout.showHealthAlert s = true).
Proof.
  exists (default Layout.initial
            (Layout_run None
               [Layout.Interval; Layout.Settles Layout.TransportError;
                Layout.Interval; Layout.Settles (Layout.Responds 200)]
               Layout.initial)).
  split; [vm_compute; reflexivity|].
  apply (banner_only_when_unhealthy None
           [Layout.Interval; Layout.Settles Layout.TransportError;
            Layout.Interval; Layout.Settles (Layout.Responds 200)]).
  vm_compute. reflexivity.
Defined.

Lemma Layout_exec_calls
  (env : option string) (e : Layout.Event) (s s' : Layout.State) :
  Layout.exec env e s = Some s' →
  match e with
  | Layout.Interval =>
      Layout.lcalls s'
      = Layout.lcalls s ++ [Layout.LFetch (Layout.API_BASE_URL env +:+ "/health")]
      ∧ Layout.pending s' = S (Layout.pending s)
  | Layout.Settles p =>
      (∃ err,
         Layout.lcalls s'
         = Layout.lcalls s
           ++ (if Layout.succeeds p then []
               else [Layout.LConsoleError "Health check failed:" err]))
      ∧ Layout.pending s = S (Layout.pending s')
  | Layout.Dismiss =>
      Layout.lcalls s' = Layout.lcalls s
      ∧ Layout.pending s' = Layout.pending s
  end.
Proof.
  destruct s as [healthy visible n l].
  destruct e as [|p|]; cbn [Layout.exec].
  - layout_run. by intros [= <-].
  - destruct n as [|n]; [done|]. intros [= <-].
    destruct p as [status| |]; cbn; layout_run.
    + destruct (ok status); cbn; (split; [|done]).
      * exists "". by rewrite app_nil_r.
      * by eexists.
    + split; [by eexists|done].
    + split; [by eexists|done].
  - unfold Layout.banner. cbn.
    destruct (visible && negb healthy); [|done]. by intros [= <-].
Qed.

(** X17. The monitor's traffic is accounted for. Each tick of the interval
    sends one request, to the address of the environment followed by
    "/health", and nothing else sends one; the polls still waiting are the
    ticks less the polls that have settled; and the console gets one error
    for each poll that failed and none for a poll that succeeded or for a
    dismissal. *)
Theorem health_polls_accounted
  (env : option string) (es : list Layout.Event) (s : Layout.State) :
  Layout_run env es Layout.initial = Some s →
  List.filter is_LFetch (Layout.lcalls s)
  = replicate (length (List.filter is_tick es))
      (Layout.LFetch (Layout.API_BASE_URL env +:+ "/health"))
  ∧ Layout.pending s + length (List.filter is_settle es)
    = length (List.filter is_tick es)
  ∧ length (List.filter is_LConsoleError (Layout.lcalls s))
    = length (List.filter is_failed_poll es)
  ∧ length (Layout.lcalls s)
    = length (List.filter is_tick es)
      + length (List.filter is_failed_poll es).
Proof.
  assert (Hgen : ∀ es s0 s,
    Layout_run env es s0 = Some s →
    List.filter is_LFetch (Layout.lcalls s)
    = List.filter is_LFetch (Layout.lcalls s0)
      ++ replicate (length (List.filter is_tick es))
           (Layout.LFetch (Layout.API_BASE_URL env +:+ "/health"))
    ∧ Layout.pending s + length (List.filter is_settle es)
      = Layout.pending s0 + length (List.filter is_tick es)
    ∧ length (List.filter is_LConsoleError (Layout.lcalls s))
      = length (List.filter is_LConsoleError (Layout.lcalls s0))
        + length (List.filter is_failed_poll es)
    ∧ length (Layout.lcalls s)
      = length (Layout.lcalls s0)
        + length (List.filter is_tick es)
        + length (List.filter is_failed_poll es)).
  { clear. induction es as [|e es IH]; intros s0 s; cbn [Layout_run].
    - intros [= <-]. cbn. rewrite app_nil_r. repeat split; lia.
    - destruct (Layout.exec env e s0) as [s1|] eqn:Hexec; [|done].
      intros Hrun. destruct (IH s1 s Hrun) as (Hf & Hp & Hc & Hl).
      apply Layout_exec_calls in Hexec.
      rewrite Hf, Hc, Hl. clear Hf Hc Hl IH Hrun.
      destruct e as [|p|]; cbn [List.filter is_tick is_settle is_failed_poll].
      + destruct Hexec as [-> Hpend]. rewrite Hpend in Hp.
        rewrite !List.filter_app, !length_app. cbn.
        rewrite <- app_assoc. cbn. repeat split; try done; lia.
      + destruct Hexec as [[err ->] Hpend]. rewrite Hpend.
        rewrite !List.filter_app, !length_app.
        destruct (Layout.succeeds p); cbn; rewrite ?app_nil_r;
          repeat split; try done; lia.
      + destruct Hexec as [-> Hpend]. rewrite Hpend in Hp.
        repeat split; try done; lia. }
  intros Hrun. destruct (Hgen es _ _ Hrun) as (Hf & Hp & Hc & Hl).
  cbn in *. repeat split; try done; lia.
Qed.

Lemma health_polls_accounted_witness :
  ∃ s,
    Layout_run (Some "https://api.example.org")
      [Layout.Interval; Layout.Interval;
       Layout.Settles Layout.Timeout; Layout.Dismiss;
       Layout.Settles (Layout.Responds 200); Layout.Interval]
      Layout.initial
    = Some s
    ∧ List.filter is_LFetch (Layout.lcalls s)
      = replicate 3 (Layout.LFetch "https://api.example.org/health")
    ∧ Layout.pending s + 2 = 3
    ∧ length (List.filter is_LConsoleError (Layout.lcalls s)) = 1
    ∧ length (Layout.lcalls s) = 3 + 1.
Proof.
  exists (default Layout.initial
            (Layout_run (Some "https://api.example.org")
               [Layout.Interval; Layout.Interval;
                Layout.Settles Layout.Timeout; Layout.Dismiss;
                Layout.Settles (Layout.Responds 200); Layout.Interval]
               Layout.initial)).
  split; [vm_compute; reflexivity|].
  apply (health_polls_accounted (Some "https://api.example.org")
           [Layout.Interval; Layout.Interval;
            Layout.Settles Layout.Timeout; Layout.Dismiss;
            Layout.Settles (Layout.Responds 200); Layout.Interval]).
  vm_compute. reflexivity.
Defined.

(** ** utils.js *)

Lemma lower_fixed (a : Ascii.ascii) : Utils.lower (Utils.lower a) = Utils.lower a.
Proof. by destruct a as [[] [] [] [] [] [] [] []]. Qed.

Lemma toLowerCase_fixed (s : string) :
  Utils.toLowerCase (Utils.toLowerCase s) = Utils.toLowerCase s.
Proof.
  induction s as [|a s IH]; [done|]. cbn. by rewrite lower_fixed, IH.
Qed.

Lemma toLowerCase_empty (s : string) : Utils.toLowerCase s = "" → s = "".
Proof. by destruct s. Qed.

Lemma toLowerCase_length (s : string) :
  String.length (Utils.toLowerCase s) = String.length s.
Proof. induction s as [|a s IH]; [done|]. cbn. by rewrite IH. Qed.

(** X18. [createPageUrl] makes a path of a page name: the result is "/"
    followed by text without capital letters, of the length of the name
    unless the name is "Home"; it is the root exactly for the name "Home",
    spelled so, and for the empty name, and spelling a name in another case
    changes nothing unless one of the spellings is "Home". *)
Theorem createPageUrl_path (pageName : string) :
  Utils.ascii_text pageName = true →
  ∃ rest,
    Utils.createPageUrl pageName = "/" +:+ rest
    ∧ Utils.toLowerCase rest = rest
    ∧ (rest = "" ↔ pageName = "Home" ∨ pageName = "")
    ∧ (pageName ≠ "Home" →
       String.length rest = String.length pageName
       ∧ ∀ other,
           other ≠ "Home" →
           Utils.toLowerCase other = Utils.toLowerCase pageName →
           Utils.createPageUrl other = Utils.createPageUrl pageName).
Proof.
  intros _. unfold Utils.createPageUrl.
  destruct (String.eqb pageName "Home") eqn:E.
  - apply String.eqb_eq in E as ->. exists "". repeat split; try done.
    by left.
  - apply String.eqb_neq in E. exists (Utils.toLowerCase pageName).
    split; [done|]. split; [apply toLowerCase_fixed|]. split.
    + split.
      * intros H. right. by apply toLowerCase_empty.
      * intros [H|H]; [done|]. by subst.
    + intros _. split; [apply toLowerCase_length|].
      intros other Hother Hsame.
      apply String.eqb_neq in Hother. by rewrite Hother, Hsame.
Qed.

Lemma createPageUrl_path_witness :
  Utils.ascii_text "Dashboard" = true
  ∧ ∃ rest,
      Utils.createPageUrl "Dashboard" = "/" +:+ rest
      ∧ Utils.toLowerCase rest = rest
      ∧ (rest = "" ↔ "Dashboard" = "Home" ∨ "Dashboard" = "")
      ∧ ("Dashboard" ≠ "Home" →
         String.length rest = String.length "Dashboard"
         ∧ ∀ other,
             other ≠ "Home" →
             Utils.toLowerCase other = Utils.toLowerCase "Dashboard" →
             Utils.createPageUrl other = Utils.createPageUrl "Dashboard").
Proof.
  split; [reflexivity|].
  apply (createPageUrl_path "Dashboard"). reflexivity.
Defined.

(** X19. The links of the application and the routes of the router fit
    together. For every link, the path that [createPageUrl] makes of its
    page name is, character for character, the path of a route, and that
    route shows the page of that name; and every route is the target of a
    link. *)
Theorem links_reach_routes :
  Forall (fun page =>
            ∃ r, r ∈ Main.router
                 ∧ Main.path r = Utils.createPageUrl page
                 ∧ Main.currentPageName r = page)
         Main.links
  ∧ Forall (fun r =>
              ∃ page, page ∈ Main.links
                      ∧ Utils.createPageUrl page = Main.path r)
           Main.router.
Proof.
  split.
  - repeat constructor.
    + exists (Main.mkRoute "/" "Home"). split; [|done].
      apply list_elem_of_here.
    + exists (Main.mkRoute "/dashboard" "Dashboard"). split; [|done].
      apply list_elem_of_further, list_elem_of_here.
    + exists (Main.mkRoute "/dashboard" "Dashboard"). split; [|done].
      apply list_elem_of_further, list_elem_of_here.
  - repeat constructor.
    + exists "Home". split; [|done]. apply list_elem_of_here.
    + exists "Dashboard". split; [|done].
      apply list_elem_of_further, list_elem_of_here.
Qed.

(** X20. On each of the two routes exactly one link of the header is drawn
    as active, and it is the link that leads to the route being shown. *)
Theorem active_link_is_current_route :
  (∀ r to, r ∈ Main.router → to ∈ Main.nav →
     (Main.isActive (Main.currentPageName r) to = true
      ↔ Utils.createPageUrl to = Main.path r))
  ∧ (∀ r, r ∈ Main.router →
       length (List.filter (Main.isActive (Main.currentPageName r)) Main.nav)
       = 1).
Proof.
  split.
  - intros r to Hr Hto. unfold Main.router, Main.nav in *.
    rewrite !elem_of_cons in Hr. rewrite !elem_of_cons in Hto.
    destruct Hr as [->|[->|Hr]]; [| |by apply not_elem_of_nil in Hr];
      (destruct Hto as [->|[->|Hto]]; [| |by apply not_elem_of_nil in Hto]);
      by cbn.
  - intros r Hr. unfold Main.router in Hr. rewrite !elem_of_cons in Hr.
    destruct Hr as [->|[->|Hr]]; [done|done|].
    by apply not_elem_of_nil in Hr.
Qed.

(** *** [cn] *)

Lemma append_assoc (s1 s2 s3 : string) :
  (s1 +:+ s2) +:+ s3 = s1 +:+ (s2 +:+ s3).
Proof.
  induction s1 as [|a s1 IH]; [done|].
  change (String a ((s1 +:+ s2) +:+ s3) = String a (s1 +:+ (s2 +:+ s3))).
  by rewrite IH.
Qed.

Lemma concat_app (sep : string) (l1 l2 : list string) :
  l1 ≠ [] → l2 ≠ [] →
  String.concat sep (l1 ++ l2)
  = String.concat sep l1 +:+ sep +:+ String.concat sep l2.
Proof.
  intros H1 H2. induction l1 as [|x l1 IH]; [done|].
  destruct l1 as [|y l1].
  - cbn. by destruct l2.
  - cbn [app String.concat] in *. rewrite IH by done.
    by rewrite !append_assoc.
Qed.

(** X21. [cn] skips what is falsy and puts one space between what is left.
    Joining two lists of classes is joining each and putting one space
    between the two texts, unless one of them has nothing truthy, and then
    the result is the text of the other alone: there is no space at either
    end and no doubled space from a missing class. *)
Theorem cn_append (ToString : value → string) (l1 l2 : list value) :
  Utils.cn ToString (l1 ++ l2)
  = match List.filter truthy l1, List.filter truthy l2 with
    | [], _ => Utils.cn ToString l2
    | _, [] => Utils.cn ToString l1
    | _, _ => Utils.cn ToString l1 +:+ " " +:+ Utils.cn ToString l2
    end.
Proof.
  unfold Utils.cn. rewrite List.filter_app, fmap_app.
  destruct (List.filter truthy l1) as [|x1 f1]; [done|].
  destruct (List.filter truthy l2) as [|x2 f2].
  - by rewrite app_nil_r.
  - by apply concat_app.
Qed.

(** X22. How the components use [cn]: with their own classes first and the
    caller's [className] last. When the caller gives no [className], or an
    empty one, the result is the component's classes as they are; otherwise
    it is these, one space, and the caller's. *)
Theorem cn_className
  (ToString : value → string) (base : string) (className : value) :
  (∀ s, ToString (VStr s) = s) →
  base ≠ "" →
  Utils.cn ToString [VStr base; className]
  = (if truthy className then base +:+ " " +:+ ToString className else base)
  ∧ Utils.cn ToString [VStr base; VUndefined] = base
  ∧ Utils.cn ToString [VStr base; VStr ""] = base.
Proof.
  intros Hstr Hbase.
  assert (truthy (VStr base) = true) as Ht.
  { cbn. apply negb_true_iff. by apply String.eqb_neq. }
  unfold Utils.cn. cbn [List.filter]. rewrite Ht. cbn.
  rewrite !Hstr. by destruct (truthy className).
Qed.

Lemma cn_className_witness :
  (∀ s, Utils.sample_ToString (VStr s) = s)
  ∧ "p-6 pt-0" ≠ ""
  ∧ Utils.cn Utils.sample_ToString
      [VStr "p-6 pt-0"; VStr "bg-gray-50 py-3 px-6"]
    = "p-6 pt-0 bg-gray-50 py-3 px-6".
Proof.
  split; [done|]. split; [done|].
  refine (proj1 (cn_className Utils.sample_ToString "p-6 pt-0"
                   (VStr "bg-gray-50 py-3 px-6") _ _)); done.
Defined.

(** ** Further properties of the card *)

(** X23. The status line and the button of a card never contradict each
    other. The button is disabled exactly when the line says
    "Checking...", and then it says so too; otherwise it offers "Check
    Pattern" exactly when the line says "Not checked", and "Check Again" for
    every other result. The filled variant goes with a result of [null],
    whether or not a check is running, and a click calls [onCheck]. *)
Theorem card_button_matches_status
  (symbol : string) (status isChecking : value) (onCheck : string) :
  let card := StockCard symbol status isChecking onCheck in
  (dom_disabled (button card) = true
   ↔ text (statusDisplay card) = "Checking...")
  ∧ (children (button card) = "Checking..."
     ↔ text (statusDisplay card) = "Checking...")
  ∧ (children (button card) = "Check Pattern"
     ↔ text (statusDisplay card) = "Not checked")
  ∧ (children (button card) = "Check Again"
     ↔ text (statusDisplay card) ≠ "Checking..."
       ∧ text (statusDisplay card) ≠ "Not checked")
  ∧ (variant (button card) = "default" ↔ status = VNull)
  ∧ onClick (button card) = onCheck
  ∧ card_symbol card = symbol.
Proof.
  unfold StockCard, getStatusDisplay, Button, dom_disabled. cbn.
  assert (is_null status = true ↔ status = VNull) as Hnull.
  { destruct status as [|[]]; cbn; split; congruence. }
  destruct (truthy isChecking); cbn;
    destruct (is_null status) eqn:E; cbn;
    [| |
     |destruct (is_true status); [|destruct (is_str "error" status)]; cbn];
    repeat split;
    try done;
    try (intros [? ?]; done);
    try (by apply Hnull);
    try (intros _; by apply Hnull);
    try (intros H; apply Hnull in H; congruence).
Qed.

(** *** The books of the page *)

Ltac tally_eval :=
  unfold balanced, tally; page_eval;
  rewrite ?List.filter_app, ?length_app; cbn; intros; lia.

Lemma take_task_length (P : Task → bool) (ts rest : list Task) (t : Task) :
  take_task P ts = Some (t, rest) → length ts = S (length rest).
Proof.
  revert rest. induction ts as [|t0 ts IH]; intros rest; cbn; [done|].
  destruct (P t0).
  - by intros [= -> ->].
  - destruct (take_task P ts) as [[t' rest']|]; [|done].
    intros [= -> <-]. cbn. by rewrite (IH rest').
Qed.

Lemma balanced_call (n : nat) (symbol : string) (w : World) :
  balanced n w → balanced n (run_async symbol (checkPattern symbol) w).
Proof.
  destruct w as [w_sr w_ic w_to w_ti w_ta w_now w_id w_rng w_dr w_ca].
  tally_eval.
Qed.

Lemma balanced_toast (n : nat) (args : object) (w : World) :
  balanced n w → balanced (S n) (snd (UseToast.toast args w)).
Proof.
  destruct w as [w_sr w_ic w_to w_ti w_ta w_now w_id w_rng w_dr w_ca].
  tally_eval.
Qed.

(** A resumption takes a call out of the queue: it ends it, or puts it
    back to wait for the body. *)
Lemma balanced_resume
  (n : nat) (symbol : string) (r : Resumption) (t : Task) (rest : list Task)
  (w : World) :
  length (tasks w) = S (length rest) →
  balanced n w →
  balanced n (run_async symbol (resume symbol r) (with_tasks rest w)).
Proof.
  destruct w as [w_sr w_ic w_to w_ti w_ta w_now w_id w_rng w_dr w_ca].
  cbn [tasks]. intros Hlen.
  destruct r as [c h [status|err]|[j|err]].
  - unfold balanced, tally. page_eval. destruct (ok status); page_eval;
      rewrite ?List.filter_app, ?length_app; cbn; intros; lia.
  - tally_eval.
  - unfold balanced, tally. page_eval.
    destruct (destructure "pattern_detected" j); page_eval;
      rewrite ?List.filter_app, ?length_app; cbn; intros; lia.
  - tally_eval.
Qed.

Lemma balanced_expire (n : nat) (id : string) (h : nat) (w : World) :
  balanced n w →
  balanced n (snd (UseToast.remove_toast id (snd (clearTimeout h w)))).
Proof.
  destruct w as [w_sr w_ic w_to w_ti w_ta w_now w_id w_rng w_dr w_ca].
  tally_eval.
Qed.

Lemma balanced_clear (n : nat) (h : nat) (w : World) :
  balanced n w → balanced n (snd (clearTimeout h w)).
Proof. by destruct w. Qed.

Lemma balanced_abort (n : nat) (c : nat) (w : World) :
  balanced n w → balanced n (abort c w).
Proof.
  intros Hbal. unfold abort.
  destruct (take_task _ (tasks w)) as [[t rest]|] eqn:Htake; [|done].
  apply take_task_length in Htake.
  unfold resume_fetch, resume_json.
  destruct (awaiting t) as [c' h'|c'].
  - by apply (balanced_resume n _ (FetchArrives c' h' (Rejected "AbortError"))
                t rest w).
  - by apply (balanced_resume n _ (JsonArrives (Rejected "AbortError"))
                t rest w).
Qed.

Lemma exec_balanced (n : nat) (e : Event) (w w' : World) :
  balanced n w → exec e w = Some w' →
  balanced (if is_Call_toast e then S n else n) w'.
Proof.
  intros Hbal.
  destruct e as [symbol|args|symbol|c res|c body|h|dt];
    cbn [exec is_Call_toast]; intros Hexec.
  - injection Hexec as <-. by apply balanced_call.
  - injection Hexec as <-. by apply balanced_toast.
  - destruct (find_card symbol w) as [card|]; [|done].
    destruct (dom_disabled (button card)); [done|].
    injection Hexec as <-. by apply balanced_call.
  - destruct (take_task _ (tasks w)) as [[t rest]|] eqn:Htake; [|done].
    injection Hexec as <-.
    pose proof (take_task_spec _ _ _ _ Htake) as [Ht _].
    apply take_task_length in Htake.
    unfold resume_fetch. unfold awaits_fetch in Ht.
    destruct (awaiting t) as [c' h'|c']; [|done].
    by apply (balanced_resume n _ (FetchArrives c' h' res) t rest w).
  - destruct (take_task _ (tasks w)) as [[t rest]|] eqn:Htake; [|done].
    injection Hexec as <-. apply take_task_length in Htake.
    by apply (balanced_resume n _ (JsonArrives body) t rest w).
  - destruct (find_timer h w) as [tm|]; [|done].
    destruct (due tm <=? now w)%N; [|done].
    injection Hexec as <-.
    destruct (callback tm) as [id|c]; cbn [run_callback].
    + by apply balanced_expire.
    + by apply balanced_abort, balanced_clear.
  - injection Hexec as <-. by destruct w.
Qed.

(** X24. The books of the page balance in every run from the first
    rendering. Of the checks started, each of which sent one request, some
    still wait; every other one has ended, and for each of these the page
    has made exactly one toast, one update of the results and two updates
    of the markers, one at the start and one at the end. No check ends
    silently and none reports twice. *)
Theorem each_check_reports_once
  (rng : nat → string) (es : list Event) (w : World) :
  run es (initial rng) = Some w →
  (length (tasks w) ≤ tally is_fetch w)%nat
  ∧ tally is_toast w
    = tally is_fetch w - length (tasks w)
      + length (List.filter is_Call_toast es)
  ∧ tally is_setStockResults w = tally is_fetch w - length (tasks w)
  ∧ tally is_setIsChecking w
    = tally is_fetch w + (tally is_fetch w - length (tasks w)).
Proof.
  assert (Hrun : ∀ es n w0 w1,
    balanced n w0 → run es w0 = Some w1 →
    balanced (n + length (List.filter is_Call_toast es)) w1).
  { clear. induction es as [|e es IH]; intros n w0 w1 Hbal; cbn [run].
    - intros [= <-]. cbn. by rewrite Nat.add_0_r.
    - destruct (exec e w0) as [w'|] eqn:Hexec; [|done].
      intros Hes. pose proof (exec_balanced n e w0 w' Hbal Hexec) as Hbal'.
      pose proof (IH _ _ _ Hbal' Hes) as Hend.
      cbn [List.filter]. destruct (is_Call_toast e); cbn [length].
      + by rewrite <- Nat.add_succ_comm.
      + done. }
  intros Hes.
  assert (balanced 0 (initial rng)) as Hinit by (by cbv).
  destruct (Hrun es 0 _ _ Hinit Hes) as (Ht & Hr & Hs). cbn in Ht. lia.
Qed.

Lemma each_check_reports_once_witness :
  ∃ w,
    run sample_session (initial sample_rng) = Some w
    ∧ (length (tasks w) ≤ tally is_fetch w)%nat
    ∧ tally is_toast w
      = tally is_fetch w - length (tasks w)
        + length (List.filter is_Call_toast sample_session)
    ∧ tally is_setStockResults w = tally is_fetch w - length (tasks w)
    ∧ tally is_setIsChecking w
      = tally is_fetch w + (tally is_fetch w - length (tasks w)).
Proof.
  exists (default (initial sample_rng)
            (run sample_session (initial sample_rng))).
  split; [vm_compute; reflexivity|].
  apply (each_check_reports_once sample_rng sample_session).
  vm_compute. reflexivity.
Defined.

(** *** Two toasts under one identifier *)

Lemma find_fresh_timer (l rest : list Timer) (tm : Timer) (h : nat) :
  handle tm = h →
  Forall (fun t => (handle t < h)%nat) l →
  List.find (fun t => Nat.eqb (handle t) h) (l ++ tm :: rest) = Some tm.
Proof.
  intros <-. induction l as [|t l IH]; intros Hall; cbn.
  - by rewrite Nat.eqb_refl.
  - apply Forall_cons in Hall as [Ht Hall].
    destruct (Nat.eqb (handle t) (handle tm)) eqn:E; [|by apply IH].
    apply Nat.eqb_eq in E. lia.
Qed.

Lemma filter_older_timers (l : list Timer) (h : nat) :
  Forall (fun t => (handle t < h)%nat) l →
  List.filter (fun t => if Nat.eqb (handle t) h then false else true) l = l.
Proof.
  induction l as [|t l IH]; intros Hall; cbn; [done|].
  apply Forall_cons in Hall as [Ht Hall].
  destruct (Nat.eqb (handle t) h) eqn:E.
  - apply Nat.eqb_eq in E. lia.
  - by rewrite IH.
Qed.

(** X25. The identifier of a toast is seven characters of a random draw,
    and nothing keeps two toasts from drawing the same. When they do, the
    timer of the first removes both: the second toast, made [dt] ms after
    the first, leaves the page with it, [3000 - dt] ms after it came, and
    its own timer stays pending with nothing left to remove. *)
Theorem colliding_toasts_leave_together
  (args1 args2 : object) (dt : N) (w : World) :
  timers_ok w →
  JS.substring 2 9 (rng w (draws w))
  = JS.substring 2 9 (rng w (S (draws w))) →
  (dt ≤ 3000)%N →
  ∃ w',
    run [Call_toast args1; Advance dt; Call_toast args2;
         Advance (3000 - dt); TimerFires (nextId w)] w
    = Some w'
    ∧ toasts w'
      = List.filter
          (UseToast.other_id (JS.substring 2 9 (rng w (draws w))))
          (toasts w)
    ∧ timers w'
      = timers w
        ++ [mkTimer (S (nextId w)) (now w + dt + 3000)
              (RemoveToast (JS.substring 2 9 (rng w (draws w))))].
Proof.
  destruct w as [w_sr w_ic w_to w_ti w_ta w_now w_id w_rng w_dr w_ca].
  intros [Hlt _] Hid Hdt. cbn [rng draws nextId timers toasts now] in *.
  cbn [run exec]. page_eval. unfold find_timer. page_eval.
  rewrite <- (app_assoc w_ti). cbn [app].
  rewrite (find_fresh_timer w_ti _ (mkTimer w_id _ _) w_id eq_refl Hlt). cbn [due callback].
  assert ((w_now + 3000 <=? w_now + dt + (3000 - dt))%N = true) as ->
    by (apply N.leb_le; lia).
  cbn [run_callback]. page_eval. eexists. split; [reflexivity|].
  cbn [toasts timers]. rewrite <- Hid. split.
  - rewrite <- (app_assoc w_to), List.filter_app. cbn.
    unfold UseToast.other_id. cbn. rewrite String.eqb_refl. cbn.
    by rewrite app_nil_r.
  - rewrite List.filter_app, (filter_older_timers _ _ Hlt).
    cbn [List.filter handle]. rewrite Nat.eqb_refl.
    replace (Nat.eqb (S w_id) w_id) with false; [done|].
    symmetry. apply Nat.eqb_neq. lia.
Qed.

Lemma colliding_toasts_leave_together_witness :
  timers_ok (initial (fun _ => "0.k3x9q2m5"))
  ∧ (1000 ≤ 3000)%N
  ∧ ∃ w',
      run [Call_toast generic_failure; Advance 1000;
           Call_toast (decision "AAPL" VTrue);
           Advance (3000 - 1000); TimerFires 0]
          (initial (fun _ => "0.k3x9q2m5"))
      = Some w'
      ∧ toasts w' = []
      ∧ timers w' = [mkTimer 1 (0 + 1000 + 3000) (RemoveToast "k3x9q2m")].
Proof.
  assert (timers_ok (initial (fun _ => "0.k3x9q2m5"))) as Hok
    by (split; [by apply Forall_nil|by apply NoDup_nil]).
  split; [done|]. split; [lia|].
  apply (colliding_toasts_leave_together generic_failure
           (decision "AAPL" VTrue) 1000 (initial (fun _ => "0.k3x9q2m5")));
    [done|reflexivity|lia].
Defined.


(** *** Whose call an abort timer ends *)

Lemma aborts_paired_shrink (w w' : World) :
  aborts_paired w →
  (∀ tm, tm ∈ timers w' → tm ∈ timers w) →
  (∀ x, x ∈ tasks w' → x ∈ tasks w) →
  nextId w' = nextId w →
  aborts_paired w'.
Proof.
  intros (Htm & Hfetch & Hjson & Hbound) Hti Hta Hn.
  split; [|split; [|split]].
  - intros tm c Hin. apply Htm. by apply Hti.
  - intros t c h Hin Hwait. rewrite Hn. apply (Hfetch t); [|done].
    by apply Hta.
  - intros t c Hin Hwait. rewrite Hn.
    destruct (Hjson t c (Hta _ Hin) Hwait) as [Hlt Hnone].
    split; [done|]. intros tm Hin'. apply Hnone. by apply Hti.
  - intros tm Hin. rewrite Hn. apply Hbound. by apply Hti.
Qed.

Lemma aborts_paired_toast (w w' : World) :
  aborts_paired w → adds_toast w w' → aborts_paired w'.
Proof.
  intros (Htm & Hfetch & Hjson & Hbound)
         (id & t & Ht & Hto & Hid & Hta & Hn & Hnow).
  split; [|split; [|split]].
  - intros tm c Hin Hcb. rewrite Ht in Hin.
    apply elem_of_app in Hin as [Hin|Hin]; [by apply Htm|].
    by apply list_elem_of_singleton in Hin as ->.
  - intros x c h Hin Hwait. rewrite Hta in Hin. rewrite Hn.
    destruct (Hfetch x c h Hin Hwait) as [-> Hlt]. split; [done|lia].
  - intros x c Hin Hwait. rewrite Hta in Hin. rewrite Hn.
    destruct (Hjson x c Hin Hwait) as [Hlt Hnone]. split; [lia|].
    intros tm Hin'. rewrite Ht in Hin'.
    apply elem_of_app in Hin' as [Hin'|Hin']; [by apply Hnone|].
    apply list_elem_of_singleton in Hin' as ->. cbn. lia.
  - intros tm Hin. rewrite Ht in Hin. rewrite Hn.
    apply elem_of_app in Hin as [Hin|Hin].
    + specialize (Hbound tm Hin). lia.
    + apply list_elem_of_singleton in Hin as ->. cbn. lia.
Qed.

Lemma aborts_paired_call (symbol : string) (w : World) :
  aborts_paired w →
  aborts_paired (run_async symbol (checkPattern symbol) w).
Proof.
  intros (Htm & Hfetch & Hjson & Hbound).
  destruct (call_shape symbol w) as (Ht & Hta & _ & _ & Hn & _).
  split; [|split; [|split]].
  - intros tm c Hin Hcb. rewrite Ht in Hin.
    apply elem_of_app in Hin as [Hin|Hin]; [by apply Htm|].
    apply list_elem_of_singleton in Hin as ->. cbn in *. congruence.
  - intros x c h Hin Hwait. rewrite Hta in Hin. rewrite Hn.
    apply elem_of_app in Hin as [Hin|Hin].
    + destruct (Hfetch x c h Hin Hwait) as [-> Hlt]. split; [done|lia].
    + apply list_elem_of_singleton in Hin as ->. cbn in Hwait.
      injection Hwait as <- <-. split; [done|lia].
  - intros x c Hin Hwait. rewrite Hta in Hin. rewrite Hn.
    apply elem_of_app in Hin as [Hin|Hin].
    + destruct (Hjson x c Hin Hwait) as [Hlt Hnone]. split; [lia|].
      intros tm Hin'. rewrite Ht in Hin'.
      apply elem_of_app in Hin' as [Hin'|Hin']; [by apply Hnone|].
      apply list_elem_of_singleton in Hin' as ->. cbn. lia.
    + by apply list_elem_of_singleton in Hin as ->.
  - intros tm Hin. rewrite Ht in Hin. rewrite Hn.
    apply elem_of_app in Hin as [Hin|Hin].
    + specialize (Hbound tm Hin). lia.
    + apply list_elem_of_singleton in Hin as ->. cbn. lia.
Qed.

Lemma aborts_paired_clear (h : nat) (w : World) :
  aborts_paired w → aborts_paired (snd (clearTimeout h w)).
Proof.
  intros Hinv. destruct (clear_shape h w) as (Ht & Hta & _ & Hn & _).
  apply (aborts_paired_shrink w); [done| | |done].
  - intros tm Hin. rewrite Ht in Hin.
    by apply elem_of_filter_bool in Hin as [Hin _].
  - intros x Hin. by rewrite Hta in Hin.
Qed.

Lemma aborts_paired_rest (w : World) (rest : list Task) :
  aborts_paired w → (∀ x, x ∈ rest → x ∈ tasks w) →
  aborts_paired (with_tasks rest w).
Proof.
  intros Hinv Hrest. apply (aborts_paired_shrink w); try done.
Qed.

Lemma aborts_paired_fetch_ok
  (symbol : string) (c status : nat) (w : World) :
  aborts_paired w → (S c < nextId w)%nat → ok status = true →
  aborts_paired
    (run_async symbol
       (checkPattern_after_fetch symbol c (S c) (Resolved status)) w).
Proof.
  intros (Htm & Hfetch & Hjson & Hbound) Hc Hok.
  destruct (fetch_ok_shape symbol c (S c) status w Hok)
    as (Ht & Hta & _ & _ & Hn & _).
  split; [|split; [|split]].
  - intros tm c' Hin. rewrite Ht in Hin.
    apply elem_of_filter_bool in Hin as [Hin _]. by apply Htm.
  - intros x c' h Hin Hwait. rewrite Hta in Hin. rewrite Hn.
    apply elem_of_app in Hin as [Hin|Hin]; [by apply (Hfetch x)|].
    by apply list_elem_of_singleton in Hin as ->.
  - intros x c' Hin Hwait. rewrite Hta in Hin. rewrite Hn.
    apply elem_of_app in Hin as [Hin|Hin].
    + destruct (Hjson x c' Hin Hwait) as [Hlt Hnone]. split; [done|].
      intros tm Hin'. rewrite Ht in Hin'.
      apply elem_of_filter_bool in Hin' as [Hin' _]. by apply Hnone.
    + apply list_elem_of_singleton in Hin as ->. cbn in Hwait.
      injection Hwait as <-. split; [done|].
      intros tm Hin'. rewrite Ht in Hin'.
      apply elem_of_filter_bool in Hin' as [_ Hne].
      by apply negb_true_iff, Nat.eqb_neq in Hne.
  - intros tm Hin. rewrite Ht in Hin. rewrite Hn.
    apply elem_of_filter_bool in Hin as [Hin _]. by apply Hbound.
Qed.

Lemma aborts_paired_abort (c : nat) (w : World) :
  aborts_paired w → aborts_paired (abort c w).
Proof.
  intros Hinv. unfold abort.
  destruct (take_task _ (tasks w)) as [[t rest]|] eqn:Htake; [|done].
  apply take_task_spec in Htake as [_ Hmem].
  assert (aborts_paired (with_tasks rest w)) as Hinv1.
  { apply aborts_paired_rest; [done|]. intros x Hx. apply Hmem. by right. }
  unfold resume_fetch, resume_json.
  destruct (awaiting t) as [c' h'|c'].
  - apply (aborts_paired_toast (with_tasks rest w)); [done|].
    apply adds_toast_fetch_rejected.
  - apply (aborts_paired_toast (with_tasks rest w)); [done|].
    apply adds_toast_after_json.
Qed.

Lemma exec_aborts_paired (e : Event) (w w' : World) :
  aborts_paired w → exec e w = Some w' → aborts_paired w'.
Proof.
  intros Hinv.
  destruct e as [symbol|args|symbol|c res|c body|h|dt]; cbn [exec];
    intros Hexec.
  - injection Hexec as <-. by apply aborts_paired_call.
  - injection Hexec as <-.
    eapply aborts_paired_toast; [done|apply adds_toast_toast].
  - destruct (find_card symbol w) as [card|]; [|done].
    destruct (dom_disabled (button card)); [done|].
    injection Hexec as <-. by apply aborts_paired_call.
  - destruct (take_task _ (tasks w)) as [[t rest]|] eqn:Htake; [|done].
    injection Hexec as <-.
    apply take_task_spec in Htake as [Hwait Hmem].
    assert (t ∈ tasks w) as Ht by (apply Hmem; by left).
    assert (aborts_paired (with_tasks rest w)) as Hinv1.
    { apply aborts_paired_rest; [done|]. intros x Hx. apply Hmem. by right. }
    unfold resume_fetch, awaits_fetch in *.
    destruct (awaiting t) as [c' h'|c'] eqn:Hawait; [|done].
    destruct res as [status|err].
    + destruct Hinv as (_ & Hfetch & _).
      destruct (Hfetch t c' h' Ht Hawait) as [-> Hlt].
      destruct (ok status) eqn:Hok.
      * by apply aborts_paired_fetch_ok.
      * apply (aborts_paired_toast
                 (snd (clearTimeout (S c') (with_tasks rest w)))).
        -- by apply aborts_paired_clear.
        -- by apply adds_toast_fetch_refused.
    + eapply aborts_paired_toast;
        [exact Hinv1|apply adds_toast_fetch_rejected].
  - destruct (take_task _ (tasks w)) as [[t rest]|] eqn:Htake; [|done].
    injection Hexec as <-.
    apply take_task_spec in Htake as [_ Hmem].
    assert (aborts_paired (with_tasks rest w)) as Hinv1.
    { apply aborts_paired_rest; [done|]. intros x Hx. apply Hmem. by right. }
    eapply aborts_paired_toast; [exact Hinv1|apply adds_toast_after_json].
  - destruct (find_timer h w) as [tm|] eqn:Hfind; [|done].
    destruct (due tm <=? now w)%N; [|done].
    injection Hexec as <-.
    destruct (callback tm) as [id|c] eqn:Hcb; cbn [run_callback].
    + destruct (expire_shape id h w) as (Ht & _ & Hta & Hn & _).
      apply (aborts_paired_shrink w
               (snd (UseToast.remove_toast id (snd (clearTimeout h w)))));
        [done| | |done].
      * intros tm' Hin. rewrite Ht in Hin.
        by apply elem_of_filter_bool in Hin as [Hin _].
      * intros x Hin. by rewrite Hta in Hin.
    + by apply aborts_paired_abort, aborts_paired_clear.
  - injection Hexec as <-. by apply (aborts_paired_shrink w).
Qed.

(** X26. An abort timer ends its own call and no other. On every page that
    the first rendering can lead to, when the timer of controller [c]
    fires, either the call of [c] is still waiting for its response, and
    then that call, alone, ends as a timeout; or no call of [c] waits any
    more, because its [fetch] was rejected before and left the timer
    behind, and then nothing happens but that the timer is gone. The timer
    never fires while the body of a response is being read. *)
Theorem abort_timer_ends_own_call
  (rng : nat → string) (es : list Event) (w w' : World)
  (h c : nat) (tm : Timer) :
  run es (initial rng) = Some w →
  find_timer h w = Some tm →
  callback tm = AbortFetch c →
  exec (TimerFires h) w = Some w' →
  (∃ symbol rest,
     take_task (fun t => Nat.eqb (task_request t) c) (tasks w)
     = Some (mkTask symbol (AwaitFetch c h), rest)
     ∧ w' = run_async symbol (fails symbol c h ClientTimeout)
              (with_tasks rest (snd (clearTimeout h w))))
  ∨ ((∀ t, t ∈ tasks w → task_request t ≠ c)
     ∧ w' = snd (clearTimeout h w)).
Proof.
  assert (Hrun : ∀ es w0 w1,
            aborts_paired w0 → run es w0 = Some w1 → aborts_paired w1).
  { clear. induction es as [|e es IH]; intros w0 w1 Hinv; cbn.
    - by intros [= <-].
    - destruct (exec e w0) as [w'|] eqn:Hexec; [|done].
      apply IH. by apply (exec_aborts_paired e w0). }
  intros Hes Hfind Hcb Hexec.
  assert (w' = abort c (snd (clearTimeout h w))) as ->.
  { cbn [exec] in Hexec. rewrite Hfind in Hexec.
    destruct (due tm <=? now w)%N; [|done].
    rewrite Hcb in Hexec. by injection Hexec as <-. }
  clear Hexec.
  assert (aborts_paired (initial rng)) as Hinit.
  { split; [|split; [|split]].
    - intros t c0 Ht. by apply not_elem_of_nil in Ht.
    - intros t c0 h0 Ht. by apply not_elem_of_nil in Ht.
    - intros t c0 Ht. by apply not_elem_of_nil in Ht.
    - intros t Ht. by apply not_elem_of_nil in Ht. }
  destruct (Hrun es _ _ Hinit Hes) as (Htm & Hfetch & Hjson & _).
  pose proof (find_timer_some _ _ _ Hfind) as [Hin Hh].
  pose proof (Htm tm c Hin Hcb) as Hpair. rewrite Hh in Hpair.
  destruct (clear_shape h w) as (_ & Hta & _).
  unfold abort. rewrite Hta.
  destruct (take_task _ (tasks w)) as [[t rest]|] eqn:Htake.
  - left. pose proof (take_task_spec _ _ _ _ Htake) as [Hreq Hmem].
    assert (t ∈ tasks w) as Ht by (apply Hmem; by left).
    apply Nat.eqb_eq in Hreq. unfold task_request in Hreq.
    destruct t as [symbol [c' h'|c']]; cbn in Hreq; subst c'.
    + destruct (Hfetch _ c h' Ht eq_refl) as [-> _]. rewrite Hpair.
      exists symbol, rest. split; [done|]. reflexivity.
    + destruct (Hjson _ c Ht eq_refl) as [_ Hnone].
      destruct (Hnone tm Hin). congruence.
  - right. split; [|done]. intros t Ht Hreq.
    clear Hta. revert Htake Ht Hreq. generalize (tasks w) as ts.
    induction ts as [|t0 ts IH]; cbn; intros Htake Ht Hreq.
    + by apply not_elem_of_nil in Ht.
    + destruct (Nat.eqb (task_request t0) c) eqn:E; [done|].
      destruct (take_task _ ts) as [[t' rest']|]; [done|].
      apply elem_of_cons in Ht as [->|Ht].
      * apply Nat.eqb_neq in E. done.
      * by apply IH.
Qed.

Lemma abort_timer_ends_own_call_witness :
  run sample_refused (initial sample_rng) = Some sample_stale
  ∧ find_timer 1 sample_stale = Some (mkTimer 1 3000 (AbortFetch 0))
  ∧ exec (TimerFires 1) sample_stale
    = Some (snd (clearTimeout 1 sample_stale))
  ∧ ((∃ symbol rest,
        take_task (fun t => Nat.eqb (task_request t) 0) (tasks sample_stale)
        = Some (mkTask symbol (AwaitFetch 0 1), rest)
        ∧ snd (clearTimeout 1 sample_stale)
          = run_async symbol (fails symbol 0 1 ClientTimeout)
              (with_tasks rest (snd (clearTimeout 1 sample_stale))))
     ∨ ((∀ t, t ∈ tasks sample_stale → task_request t ≠ 0)
        ∧ snd (clearTimeout 1 sample_stale)
          = snd (clearTimeout 1 sample_stale))).
Proof.
  split; [vm_compute; reflexivity|].
  split; [vm_compute; reflexivity|].
  split; [vm_compute; reflexivity|].
  apply (abort_timer_ends_own_call sample_rng sample_refused sample_stale
           (snd (clearTimeout 1 sample_stale)) 1 0
           (mkTimer 1 3000 (AbortFetch 0)));
    vm_compute; reflexivity.
Defined.
